(** * CovertChannelsLab: storage and timing covert channels

    Shallow embedding of the four scripts of the repository
    ([storage_sender.py], [storage_receiver.py], [timing_sender.py],
    [timing_receiver.py]) and the properties of their codecs and
    stream decoders.

    Conventions of the embedding:
    - a Python [str] is the list of its code points ([Py.str]), so [ord]
      and [chr] are the identity on [Z];
    - [time.time()] readings are rationals supplied by the environment;
    - console output produced while decoding is not modelled, the final
      report is a value;
    - a raised exception is a value of [Py.exn]. *)

From Stdlib Require Import String Ascii.
From Stdlib Require Import ZArith QArith List Bool Lia Arith.
Import ListNotations.

Open Scope Z_scope.

(** ** Python primitives used by the scripts *)

Module Py.

Definition str := list Z.

Definition ord (c : Z) : Z := c.
Definition chr (n : Z) : Z := n.

(** A string literal as a Python [str]. *)
Definition lit (s : string) : str :=
  map (fun a => Z.of_N (N_of_ascii a)) (list_ascii_of_string s).

(** [range(0, stop, step)] for a positive [step]. *)
Definition range_by (stop step : nat) : list nat :=
  map (fun k => (k * step)%nat) (seq 0 ((stop + step - 1) / step)).

(** [range(n - 1, -1, -1)]. *)
Definition range_down (n : nat) : list nat := rev (seq 0 n).

(** [s[i:j]] for [0 <= i <= j]. *)
Definition slice {A} (s : list A) (i j : nat) : list A :=
  firstn (j - i) (skipn i s).

(** [s.ljust(width, fill)]. *)
Definition ljust (s : str) (width : nat) (fill : Z) : str :=
  s ++ repeat fill (width - length s).

(** [[s[i:i+step] for i in range(0, len(s), step)]]. *)
Definition chunks {A} (step : nat) (s : list A) : list (list A) :=
  map (fun i => slice s i (i + step)) (range_by (length s) step).

Inductive exn : Type :=
| KeyboardInterrupt
| PermissionError
| OSError
| TypeError.

(** [32 <= b <= 126]. *)
Definition printable (b : Z) : bool := (32 <=? b) && (b <=? 126).

End Py.

(** ** storage_sender.py *)

Module StorageSender.

Definition bytes_per_packet : nat := 2.

(** Lines 46-48: the chunk's characters folded into one integer. *)
Definition pack (chunk : Py.str) : Z :=
  fold_left (fun encoded_value char =>
               Z.lor (Z.shiftl encoded_value 8) (Py.ord char)) chunk 0.

(** Lines 41-48: the IP_ID values of the data packets, in order. *)
Definition encode (message : Py.str) : list Z :=
  map (fun i =>
         let chunk := Py.slice message i (i + bytes_per_packet) in
         let chunk := Py.ljust chunk bytes_per_packet 0 in
         pack chunk)
      (Py.range_by (length message) bytes_per_packet).

(** The (id, ttl) pairs handed to [send] when no send fails: the data
    packets, then three EOF markers. *)
Definition send_storage_channel (message : Py.str) (ttl : Z) : list (Z * Z) :=
  map (fun w => (w, ttl)) (encode message) ++ repeat (65535, ttl) 3.

End StorageSender.

(** ** storage_receiver.py *)

Module StorageReceiver.

Record IP : Type := mkIP { id : Z; ttl : Z }.

(** A sniffed packet; [None] is a packet without IP layer. *)
Definition packet := option IP.

Definition bytes_per_packet : nat := 2.
Definition eof_threshold : Z := 65535.

Record t : Type := mk {
  expected_ttl : Z;
  decoded_bytes : Py.str;
  start_time : option Q;
  packet_count : Z;
  last_packet_id : option Z;
  system_packets_filtered : Z
}.

(** [__init__]. *)
Definition init (ttl : Z) : t :=
  mk ttl [] None 0 None 0.

(** Lines 73-91: the scan of the byte positions [idxs] of
    [encoded_value]; a zero byte leaves the loop. *)
Fixpoint scan (encoded_value : Z) (idxs : list nat) (byte_list : Py.str)
  : Py.str :=
  match idxs with
  | [] => byte_list
  | i :: idxs' =>
      let byte_val := Z.land (Z.shiftr encoded_value (Z.of_nat i * 8)) 255 in
      if byte_val =? 0 then byte_list
      else if Py.printable byte_val
           then scan encoded_value idxs' (byte_list ++ [Py.chr byte_val])
           else scan encoded_value idxs' byte_list
  end.

(** Lines 68-91: the characters one word yields. *)
Definition decode_word (encoded_value : Z) : Py.str :=
  scan encoded_value (Py.range_down bytes_per_packet) [].

(** [encoded_value == self.last_packet_id]. *)
Definition eq_last (encoded_value : Z) (last : option Z) : bool :=
  match last with
  | None => false
  | Some l => encoded_value =? l
  end.

(** [packet_callback]; [now] is what [time.time()] returns if it is
    called. *)
Definition packet_callback (now : Q) (pkt : packet) (self : t) : t :=
  match pkt with
  | None => self
  | Some ip =>
      let encoded_value := id ip in
      if negb (ttl ip =? expected_ttl self) then
        mk (expected_ttl self) (decoded_bytes self) (start_time self)
           (packet_count self) (last_packet_id self)
           (system_packets_filtered self + 1)
      else if eq_last encoded_value (last_packet_id self) then self
      else
        let start_time' :=
          match start_time self with
          | None => Some now
          | Some t0 => Some t0
          end in
        if encoded_value =? eof_threshold then
          mk (expected_ttl self) (decoded_bytes self) start_time'
             (packet_count self) (Some encoded_value)
             (system_packets_filtered self)
        else
          let byte_list := decode_word encoded_value in
          mk (expected_ttl self) (decoded_bytes self ++ byte_list) start_time'
             (packet_count self + 1) (Some encoded_value)
             (system_packets_filtered self)
  end.

Record results : Type := mkResults {
  message : Py.str;
  chars : nat;
  packets : Z;
  filtered : Z;
  elapsed : Q;
  bps : Q
}.

Inductive report : Type :=
| No_packets_received
| Results (r : results).

(** [print_results]; [now] is the reading of [time.time()] at line 137. *)
Definition print_results (now : Q) (self : t) : report :=
  match start_time self with
  | None => No_packets_received
  | Some t0 =>
      let elapsed := (now - t0)%Q in
      let bits_decoded := Z.of_nat (length (decoded_bytes self)) * 8 in
      let bps := if negb (Qle_bool elapsed 0)
                 then (inject_Z bits_decoded / elapsed)%Q
                 else 0%Q in
      Results (mkResults (decoded_bytes self) (length (decoded_bytes self))
                         (packet_count self) (system_packets_filtered self)
                         elapsed bps)
  end.

(** What [sniff] does next: hands a packet to the callback, raises an
    exception to its caller, or returns (as it does when it handles an
    interrupt or a failure of the capture itself). *)
Inductive sniff_event : Type :=
| Deliver (now : Q) (pkt : packet)
| Raise (e : Py.exn) (now : Q)
| Returns.

(** [Sniffing]: [sniff] is still waiting.  [Returned]: one of the
    handlers of [run] ran and printed the report.  [Ended]: [sniff]
    returned and [run] ended after it, with no report. *)
Inductive outcome : Type :=
| Sniffing (self : t)
| Returned (self : t) (cause : Py.exn) (rep : report)
| Ended (self : t).

(** [run]: the three handlers of lines 115-123 all call
    [print_results]; nothing follows the [try] statement, so when
    [sniff] returns, [run] ends without calling it. *)
Fixpoint run (events : list sniff_event) (self : t) : outcome :=
  match events with
  | [] => Sniffing self
  | Deliver now pkt :: events' => run events' (packet_callback now pkt self)
  | Raise e now :: _ =>
      match e with
      | Py.KeyboardInterrupt => Returned self e (print_results now self)
      | Py.PermissionError => Returned self e (print_results now self)
      | _ => Returned self e (print_results now self)
      end
  | Returns :: _ => Ended self
  end.

(** The state [run] is in when it stops or is still sniffing. *)
Definition final_state (o : outcome) : t :=
  match o with
  | Sniffing s => s
  | Returned s _ _ => s
  | Ended s => s
  end.

(** The session state after the callback has seen every packet of a
    stream of (word, ttl) observations taken at the given times. *)
Definition feed (obs : list (Q * (Z * Z))) (self : t) : t :=
  fold_left (fun s o => packet_callback (fst o)
                          (Some (mkIP (fst (snd o)) (snd (snd o)))) s)
            obs self.

End StorageReceiver.

(** ** timing_receiver.py *)

Module TimingReceiver.

(** The local variables of [receive_timing_channel]; a bit is [true]
    for ['1'] and [false] for ['0']. *)
Record locals : Type := mk {
  bits : list bool;
  iats : list Q;
  bit_labels : list bool;
  prev_time : option Q;
  start_time : option Q;
  eof_count : Z;
  packets_received : Z
}.

(** Lines 27-34. *)
Definition init : locals := mk [] [] [] None None 0 0.

(** What [sock.recvfrom] does next: returns a datagram, read at
    [current_time], or raises. *)
Inductive recv_event : Type :=
| Recv (data : string) (current_time : Q)
| RecvRaise (e : Py.exn).

Inductive flow : Type :=
| Continue (l : locals)
| Break (l : locals)
| Throw (e : Py.exn).

(** Lines 43-75: one iteration of the [while True] loop after
    [recvfrom] returned. *)
Definition iteration (threshold : Q) (data : string) (current_time : Q)
           (l : locals) : flow :=
  let packets_received' := packets_received l + 1 in
  if String.eqb data "EOF" then
    let eof_count' := eof_count l + 1 in
    let l' := mk (bits l) (iats l) (bit_labels l) (prev_time l)
                 (start_time l) eof_count' packets_received' in
    if 2 <=? eof_count' then Break l' else Continue l'
  else
    match start_time l with
    | None =>
        Continue (mk (bits l) (iats l) (bit_labels l) (Some current_time)
                     (Some current_time) (eof_count l) packets_received')
    | Some t0 =>
        match prev_time l with
        | None => Throw Py.TypeError
        | Some prev =>
            let iat := (current_time - prev)%Q in
            let bit := negb (Qle_bool iat threshold) in
            Continue (mk (bits l ++ [bit]) (iats l ++ [iat])
                         (bit_labels l ++ [bit]) (Some current_time)
                         (Some t0) (eof_count l) packets_received')
        end
    end.

(** [int(c, 2)] on a string of ['0']/['1'] characters. *)
Definition int2 (c : list bool) : Z :=
  fold_left (fun acc (b : bool) => 2 * acc + (if b then 1 else 0)) c 0.

(** Lines 78-80: the bits turned into text. *)
Definition bits_to_message (bits : list bool) : Py.str :=
  let chars := Py.chunks 8 bits in
  map (fun c => Py.chr (int2 c))
      (filter (fun c => (length c =? 8)%nat) chars).

Record summary : Type := mkSummary {
  message : Py.str;
  nbits : nat;
  packets : Z;
  elapsed : Q;
  bps : Q
}.

Inductive outcome : Type :=
| Receiving (l : locals)
| Reported (r : summary)
| Uncaught (e : Py.exn).

(** Lines 78-106 up to the rate: [time.time() - start_time] raises
    [TypeError] when [start_time] is still [None].  The IAT statistics
    that follow only read [iats] and [bit_labels] and do not raise. *)
Definition finish (now : Q) (l : locals) : outcome :=
  let message := bits_to_message (bits l) in
  match start_time l with
  | None => Uncaught Py.TypeError
  | Some t0 =>
      let elapsed := (now - t0)%Q in
      let bps := if negb (Qle_bool elapsed 0)
                 then (inject_Z (Z.of_nat (length (bits l))) / elapsed)%Q
                 else 0%Q in
      Reported (mkSummary message (length (bits l)) (packets_received l)
                          elapsed bps)
  end.

(** The [while True] loop; nothing around [recvfrom] catches what it
    raises.  [now] is the reading of [time.time()] at line 82. *)
Fixpoint loop (threshold : Q) (events : list recv_event) (now : Q)
         (l : locals) : outcome :=
  match events with
  | [] => Receiving l
  | RecvRaise e :: _ => Uncaught e
  | Recv data current_time :: events' =>
      match iteration threshold data current_time l with
      | Continue l' => loop threshold events' now l'
      | Break l' => finish now l'
      | Throw e => Uncaught e
      end
  end.

Definition receive_timing_channel (threshold : Q)
           (events : list recv_event) (now : Q) : outcome :=
  loop threshold events now init.

(** The grouping of section 4.4 of the specification, in its words:
    eight bits at a time, the first bit of a group being bit 7, a
    shorter tail dropped. *)
Fixpoint assemble (bits : list bool) : Py.str :=
  match bits with
  | b7 :: b6 :: b5 :: b4 :: b3 :: b2 :: b1 :: b0 :: rest =>
      (128 * Z.b2z b7 + 64 * Z.b2z b6 + 32 * Z.b2z b5 + 16 * Z.b2z b4
       + 8 * Z.b2z b3 + 4 * Z.b2z b2 + 2 * Z.b2z b1 + Z.b2z b0)
        :: assemble rest
  | _ => []
  end.

(** A bit string literal such as ["0101"]. *)
Definition bitlit (s : string) : list bool :=
  map (fun a => Ascii.eqb a "1"%char) (list_ascii_of_string s).

End TimingReceiver.

(** ** The specification's wording of the codec rules *)

Module Spec.

(** Section 4.1, [decode_word]: the bytes of a word, high first; a
    zero byte stops, a printable byte is appended, any other byte is
    dropped. *)
Fixpoint decode_bytes (bytes : list Z) : Py.str :=
  match bytes with
  | [] => []
  | b :: rest =>
      if b =? 0 then []
      else if Py.printable b then Py.chr b :: decode_bytes rest
           else decode_bytes rest
  end.

Definition hi (word : Z) : Z := Z.land (Z.shiftr word 8) 255.
Definition lo (word : Z) : Z := Z.land word 255.

(** A word list with every word equal to its predecessor removed;
    [last] is the predecessor of the head. *)
Fixpoint squash (last : option Z) (ws : list Z) : list Z :=
  match ws with
  | [] => []
  | w :: ws' =>
      if StorageReceiver.eq_last w last then squash last ws'
      else w :: squash (Some w) ws'
  end.

(** What an accepted word adds to the message. *)
Definition payload (w : Z) : Py.str :=
  if w =? StorageReceiver.eof_threshold then []
  else StorageReceiver.decode_word w.

(** Two equal neighbours somewhere in the list. *)
Fixpoint has_repeat (ws : list Z) : bool :=
  match ws with
  | w :: ((w' :: _) as ws') => (w =? w') || has_repeat ws'
  | _ => false
  end.

(** A lossless, duplicate-free transport of the sender's data packets:
    one observation per word, all with the session's TTL. *)
Definition lossless (ttl : Z) (ws : list Z) : list (Q * (Z * Z)) :=
  map (fun w => (0%Q, (w, ttl))) ws.

End Spec.

(** ** storage_sender.py: sending over a [send] that can raise *)

Module StorageSend.

(** Line 34: the packet count announced before sending. *)
Definition packets_needed (message : Py.str) : nat :=
  ((length message + StorageSender.bytes_per_packet - 1)
   / StorageSender.bytes_per_packet)%nat.

(** Lines 41-62: [ok k] tells whether the [k]-th call of [send] returns
    or raises.  The data loop returns from the function at the first
    call that raises.  The result holds the packets that went out and
    whether the loop ran to its end. *)
Fixpoint send_words (ok : nat -> bool) (k : nat) (ttl : Z) (words : list Z)
  : list (Z * Z) * bool :=
  match words with
  | [] => ([], true)
  | w :: words' =>
      if ok k then
        let (sent, finished) := send_words ok (S k) ttl words' in
        ((w, ttl) :: sent, finished)
      else ([], false)
  end.

(** Lines 68-74: three EOF markers; a call that raises is passed over. *)
Definition send_eofs (ok : nat -> bool) (k : nat) (ttl : Z) : list (Z * Z) :=
  flat_map (fun j => if ok (k + j)%nat then [(65535, ttl)] else []) (seq 0 3).

(** The (id, ttl) pairs that reach the wire. *)
Definition send_storage_channel (ok : nat -> bool) (message : Py.str)
           (ttl : Z) : list (Z * Z) :=
  let words := StorageSender.encode message in
  match send_words ok 0 ttl words with
  | (sent, true) => sent ++ send_eofs ok (length words) ttl
  | (sent, false) => sent
  end.

End StorageSend.

(** ** Bookkeeping on storage sessions *)

Module StorageSession.

(** The session with its filter counter moved by [n]. *)
Definition add_filtered (n : Z) (s : StorageReceiver.t) : StorageReceiver.t :=
  StorageReceiver.mk
    (StorageReceiver.expected_ttl s) (StorageReceiver.decoded_bytes s)
    (StorageReceiver.start_time s) (StorageReceiver.packet_count s)
    (StorageReceiver.last_packet_id s)
    (StorageReceiver.system_packets_filtered s + n).

(** The observation carries the TTL [ttl]. *)
Definition has_ttl (ttl : Z) (o : Q * (Z * Z)) : bool := snd (snd o) =? ttl.

(** The packet has an IP layer and carries the TTL [ttl]. *)
Definition ip_with_ttl (ttl : Z) (d : Q * StorageReceiver.packet) : bool :=
  match snd d with
  | Some ip => StorageReceiver.ttl ip =? ttl
  | None => false
  end.

End StorageSession.

(** ** timing_sender.py *)

Module TimingSender.

(** The binary digits of a positive number, highest first. *)
Fixpoint bin (p : positive) : list bool :=
  match p with
  | xH => [true]
  | xO p' => bin p' ++ [false]
  | xI p' => bin p' ++ [true]
  end.

(** [format(n, '08b')] for [n >= 0]: the binary digits, filled with
    zeros on the left up to eight places. *)
Definition format_08b (n : Z) : list bool :=
  let digits := match n with
                | Zpos p => bin p
                | _ => [false]
                end in
  repeat false (8 - length digits) ++ digits.

(** [text_to_bits]. *)
Definition text_to_bits (text : Py.str) : list bool :=
  concat (map (fun c => format_08b (Py.ord c)) text).

(** Lines 44-55: one datagram per bit, then a sleep of the bit's
    delay.  [time.sleep] raises [ValueError] on a negative delay, which
    nothing catches: the datagram of that bit is the last one sent.
    The result holds the datagrams in the order they are sent, and
    [None] when the loop died this way.  Each datagram is paired with
    its nominal sending time, counted from [t] with every sleep lasting
    exactly its argument; the real clock readings are not modelled, and
    what a receiver measures is given by its own readings. *)
Fixpoint send_bits (bit0_delay bit1_delay : Q) (bits : list bool) (t : Q)
  : list (string * Q) * option Q :=
  match bits with
  | [] => ([], Some t)
  | bit :: bits' =>
      let delay := if bit then bit1_delay else bit0_delay in
      if Qle_bool 0 delay then
        let (sent, after) :=
          send_bits bit0_delay bit1_delay bits' (t + delay)%Q in
        (("X"%string, t) :: sent, after)
      else ([("X"%string, t)], None)
  end.

(** Lines 62-64: [n] EOF markers half a second apart. *)
Fixpoint send_eofs (n : nat) (t : Q) : list (string * Q) :=
  match n with
  | O => []
  | S n' => ("EOF"%string, t) :: send_eofs n' (t + (1 # 2))%Q
  end.

(** [send_timing_channel]: the datagrams that go out, in order, the
    first one at [t]; the EOF markers follow only when the loop over
    the bits ran to its end. *)
Definition send_timing_channel (message : Py.str)
           (bit0_delay bit1_delay : Q) (t : Q) : list (string * Q) :=
  let bits := text_to_bits message in
  match send_bits bit0_delay bit1_delay bits t with
  | (sent, Some t') => sent ++ send_eofs 3 t'
  | (sent, None) => sent
  end.

End TimingSender.

(** ** The timing receiver's loop and statistics *)

Module TimingSession.

(** The [while True] loop of [receive_timing_channel] over datagrams
    that all arrive, up to its [break]. *)
Fixpoint collect (threshold : Q) (datagrams : list (string * Q))
         (l : TimingReceiver.locals) : TimingReceiver.flow :=
  match datagrams with
  | [] => TimingReceiver.Continue l
  | (data, current_time) :: datagrams' =>
      match TimingReceiver.iteration threshold data current_time l with
      | TimingReceiver.Continue l' => collect threshold datagrams' l'
      | other => other
      end
  end.

(** A transport that hands every datagram over at the time it was
    sent. *)
Definition ideal (sent : list (string * Q)) : list TimingReceiver.recv_event :=
  map (fun d => TimingReceiver.Recv (fst d) (snd d)) sent.



(** Lines 86-87: [[iats[i] for i in range(len(iats)) if bit_labels[i] ==
    label]]; [None] stands for the [IndexError] of a label list that is
    too short. *)
Fixpoint pick (label : bool) (iats : list Q) (bit_labels : list bool)
         (idxs : list nat) : option (list Q) :=
  match idxs with
  | [] => Some []
  | i :: idxs' =>
      match nth_error bit_labels i, nth_error iats i with
      | Some b, Some x =>
          match pick label iats bit_labels idxs' with
          | Some rest => Some (if Bool.eqb b label then x :: rest else rest)
          | None => None
          end
      | _, _ => None
      end
  end.

Definition class_iats (label : bool) (l : TimingReceiver.locals)
  : option (list Q) :=
  pick label (TimingReceiver.iats l) (TimingReceiver.bit_labels l)
       (seq 0 (length (TimingReceiver.iats l))).

(** The number of datagrams equal to [b'EOF'] and of the others. *)
Definition eof_markers (datagrams : list (string * Q)) : nat :=
  length (filter (fun d => String.eqb (fst d) "EOF") datagrams).

Definition data_datagrams (datagrams : list (string * Q)) : nat :=
  length (filter (fun d => negb (String.eqb (fst d) "EOF")) datagrams).

(** The datagrams the loop reads when it still needs [k] EOF markers
    to stop: everything up to the marker that ends it. *)
Fixpoint read (k : nat) (datagrams : list (string * Q)) : list (string * Q) :=
  match datagrams with
  | [] => []
  | d :: datagrams' =>
      if String.eqb (fst d) "EOF" then
        match k with
        | S (S k') => d :: read (S k') datagrams'
        | _ => [d]
        end
      else d :: read k datagrams'
  end.

(** The number of data datagrams the locals account for. *)
Definition seen (l : TimingReceiver.locals) : nat :=
  match TimingReceiver.start_time l with
  | None => 0
  | Some _ => S (length (TimingReceiver.bits l))
  end.

(** What the loop keeps true of its locals. *)
Definition sound (threshold : Q) (l : TimingReceiver.locals) : Prop :=
  (TimingReceiver.start_time l = None -> TimingReceiver.bits l = [])
  /\ (TimingReceiver.start_time l <> None -> TimingReceiver.prev_time l <> None)
  /\ TimingReceiver.bit_labels l = TimingReceiver.bits l
  /\ Forall2 (fun x b => b = negb (Qle_bool x threshold))
             (TimingReceiver.iats l) (TimingReceiver.bits l).

End TimingSession.

(** ** Slicing into chunks *)

Section Chunks.

Context {A : Type}.
Variable step : nat.
Hypothesis step_pos : (0 < step)%nat.

Lemma range_by_nil : Py.range_by 0 step = [].
Proof.
  unfold Py.range_by.
  replace ((0 + step - 1) / step)%nat with 0%nat; [reflexivity|].
  symmetry. apply Nat.div_small. lia.
Qed.

Lemma range_by_step (n : nat) :
  Py.range_by (n + step) step
  = 0%nat :: map (fun i => (i + step)%nat) (Py.range_by n step).
Proof.
  unfold Py.range_by.
  replace (n + step + step - 1)%nat with ((n + step - 1) + 1 * step)%nat by lia.
  rewrite Nat.div_add by lia.
  rewrite Nat.add_1_r. cbn [seq map].
  rewrite <- seq_shift, !map_map. f_equal.
  apply map_ext. intros k. lia.
Qed.

Lemma range_by_short (n : nat) :
  (0 < n <= step)%nat -> Py.range_by n step = [0%nat].
Proof.
  intros Hn. unfold Py.range_by.
  replace ((n + step - 1) / step)%nat with 1%nat; [reflexivity|].
  replace (n + step - 1)%nat with ((n - 1) + 1 * step)%nat by lia.
  rewrite Nat.div_add by lia. rewrite Nat.div_small; lia.
Qed.

Lemma slice_shift (pre rest : list A) (i : nat) :
  length pre = step ->
  Py.slice (pre ++ rest) (i + step) (i + step + step)
  = Py.slice rest i (i + step).
Proof.
  intros Hlen. unfold Py.slice.
  replace (i + step + step - (i + step))%nat with (i + step - i)%nat by lia.
  f_equal. rewrite skipn_app.
  rewrite (skipn_all2 pre) by lia. cbn [app].
  f_equal. lia.
Qed.

Lemma chunks_nil : Py.chunks step (@nil A) = [].
Proof.
  unfold Py.chunks. cbn [length]. now rewrite range_by_nil.
Qed.

Lemma chunks_app (pre rest : list A) :
  length pre = step ->
  Py.chunks step (pre ++ rest) = pre :: Py.chunks step rest.
Proof.
  intros Hlen. unfold Py.chunks.
  rewrite length_app, Hlen, Nat.add_comm, range_by_step.
  cbn [map]. f_equal.
  - unfold Py.slice. cbn [skipn]. rewrite Nat.add_0_l, Nat.sub_0_r.
    rewrite firstn_app, Hlen, Nat.sub_diag. cbn [firstn].
    rewrite app_nil_r. apply firstn_all2. lia.
  - rewrite map_map. apply map_ext. intros i. now apply slice_shift.
Qed.

Lemma chunks_short (l : list A) :
  (0 < length l <= step)%nat -> Py.chunks step l = [l].
Proof.
  intros Hl. unfold Py.chunks. rewrite range_by_short by exact Hl.
  cbn [map]. unfold Py.slice. cbn [skipn].
  rewrite firstn_all2 by lia. reflexivity.
Qed.

End Chunks.

(** ** The storage codec *)

Section StorageCodec.

Import StorageReceiver.

Lemma range_down_two : Py.range_down bytes_per_packet = [1%nat; 0%nat].
Proof. reflexivity. Qed.

Lemma decode_word_unfold (w : Z) :
  decode_word w = Spec.decode_bytes [Spec.hi w; Spec.lo w].
Proof.
  unfold decode_word. rewrite range_down_two.
  unfold Spec.hi, Spec.lo. cbn [scan Spec.decode_bytes].
  change (Z.of_nat 1 * 8) with 8. change (Z.of_nat 0 * 8) with 0.
  rewrite Z.shiftr_0_r.
  destruct (Z.land (Z.shiftr w 8) 255 =? 0); [reflexivity|].
  destruct (Py.printable (Z.land (Z.shiftr w 8) 255));
    destruct (Z.land w 255 =? 0); try reflexivity;
    destruct (Py.printable (Z.land w 255)); reflexivity.
Qed.

Lemma low_byte_only_has_zero_high (w : Z) : Spec.hi (Z.land w 255) = 0.
Proof.
  unfold Spec.hi.
  change 255 with (Z.ones 8).
  rewrite (Z.land_ones w 8) by lia.
  rewrite Z.shiftr_div_pow2 by lia.
  rewrite Z.div_small; [reflexivity|].
  apply Z.mod_pos_bound. reflexivity.
Qed.

Lemma decode_word_length (w : Z) : (length (decode_word w) <= 2)%nat.
Proof.
  rewrite decode_word_unfold. cbn [Spec.decode_bytes].
  repeat match goal with
         | |- context [if ?c then _ else _] => destruct c
         end; cbn [length]; lia.
Qed.

Lemma decode_word_printable (w : Z) :
  Forall (fun c => Py.printable c = true) (decode_word w).
Proof.
  rewrite decode_word_unfold. cbn [Spec.decode_bytes].
  destruct (Spec.hi w =? 0); [constructor|].
  destruct (Py.printable (Spec.hi w)) eqn:Hh;
    destruct (Spec.lo w =? 0); try (repeat constructor; assumption);
    destruct (Py.printable (Spec.lo w)) eqn:Hl;
    repeat constructor; assumption.
Qed.

(** C6. [decode_word] reads the two bytes of a word from the high one
    to the low one: a zero byte ends the scan of the word (so a word
    whose high byte is zero yields nothing, whatever its low byte), a
    byte in 32..126 becomes a character, any other byte is skipped and
    the scan goes on.  0x4100 gives "A", 0x0041 gives "", 0x4142 gives
    "AB" and 0x0141 gives "A". *)
Theorem decode_word_scans_high_to_low :
  (forall w : Z, decode_word w = Spec.decode_bytes [Spec.hi w; Spec.lo w])
  /\ (forall w : Z, decode_word (Z.land w 255) = [])
  /\ decode_word 0x4100 = Py.lit "A"
  /\ decode_word 0x0041 = Py.lit ""
  /\ decode_word 0x4142 = Py.lit "AB"
  /\ decode_word 0x0141 = Py.lit "A".
Proof.
  split; [exact decode_word_unfold|].
  split.
  - intros w. rewrite decode_word_unfold, low_byte_only_has_zero_high.
    reflexivity.
  - repeat split; reflexivity.
Qed.

Lemma printable_range (c : Z) : Py.printable c = true -> 32 <= c <= 126.
Proof. unfold Py.printable. intros H. apply andb_prop in H. lia. Qed.

Lemma pack_pair (a b : Z) :
  StorageSender.pack [a; b] = Z.lor (Z.shiftl a 8) b.
Proof. reflexivity. Qed.

Lemma hi_pack (a b : Z) :
  0 <= a < 256 -> 0 <= b < 256 -> Spec.hi (Z.lor (Z.shiftl a 8) b) = a.
Proof.
  intros Ha Hb. unfold Spec.hi.
  rewrite Z.shiftr_lor, Z.shiftr_shiftl_l by lia.
  rewrite Z.sub_diag, Z.shiftl_0_r.
  rewrite (Z.shiftr_div_pow2 b 8) by lia.
  rewrite (Z.div_small b) by (change (2 ^ 8) with 256; lia).
  rewrite Z.lor_0_r. change 255 with (Z.ones 8).
  rewrite Z.land_ones by lia. apply Z.mod_small.
  change (2 ^ 8) with 256. lia.
Qed.

Lemma lo_pack (a b : Z) :
  0 <= b < 256 -> Spec.lo (Z.lor (Z.shiftl a 8) b) = b.
Proof.
  intros Hb. unfold Spec.lo. change 255 with (Z.ones 8).
  rewrite Z.land_lor_distr_l, !Z.land_ones by lia.
  rewrite Z.shiftl_mul_pow2 by lia.
  rewrite Z.mod_mul by (change (2 ^ 8) with 256; lia).
  rewrite Z.lor_0_l. apply Z.mod_small. change (2 ^ 8) with 256. lia.
Qed.

Lemma decode_word_pack (a b : Z) :
  Py.printable a = true -> Py.printable b = true ->
  decode_word (StorageSender.pack [a; b]) = [a; b].
Proof.
  intros Ha Hb.
  pose proof (printable_range a Ha). pose proof (printable_range b Hb).
  rewrite decode_word_unfold, pack_pair.
  rewrite hi_pack, lo_pack by lia.
  cbn [Spec.decode_bytes]. rewrite Ha, Hb.
  replace (a =? 0) with false by (symmetry; apply Z.eqb_neq; lia).
  replace (b =? 0) with false by (symmetry; apply Z.eqb_neq; lia).
  reflexivity.
Qed.

Lemma encode_chunks (message : Py.str) :
  StorageSender.encode message
  = map (fun chunk => StorageSender.pack (Py.ljust chunk 2 0))
        (Py.chunks 2 message).
Proof.
  unfold StorageSender.encode, Py.chunks. rewrite map_map. reflexivity.
Qed.

Lemma encode_nil : StorageSender.encode [] = [].
Proof. reflexivity. Qed.

Lemma encode_pair (a b : Z) (rest : Py.str) :
  StorageSender.encode (a :: b :: rest)
  = StorageSender.pack [a; b] :: StorageSender.encode rest.
Proof.
  rewrite !encode_chunks.
  change (a :: b :: rest) with ([a; b] ++ rest).
  rewrite chunks_app by (reflexivity || lia). reflexivity.
Qed.

Lemma encode_length (message : Py.str) :
  length (StorageSender.encode message) = ((length message + 1) / 2)%nat.
Proof.
  unfold StorageSender.encode, Py.range_by.
  rewrite !length_map, length_seq. unfold StorageSender.bytes_per_packet.
  f_equal. lia.
Qed.

Lemma roundtrip_by_pairs (n : nat) :
  forall message : Py.str,
    length message = (2 * n)%nat ->
    Forall (fun c => Py.printable c = true) message ->
    concat (map decode_word (StorageSender.encode message)) = message.
Proof.
  induction n as [|n IH]; intros message Hlen Hp.
  - destruct message; [reflexivity|discriminate].
  - destruct message as [|a [|b rest]]; cbn [length] in Hlen; try lia.
    inversion Hp as [|? ? Ha Hp1]; subst.
    inversion Hp1 as [|? ? Hb Hrest]; subst.
    rewrite encode_pair. cbn [map concat].
    rewrite decode_word_pack by assumption.
    rewrite IH; [reflexivity|lia|assumption].
Qed.

(** C7. A message of printable ASCII characters (32..126, hence without
    a null character) and of even length is rebuilt exactly by
    [decode_word] applied, in order, to the words [encode] makes of
    it. *)
Theorem decode_encode_roundtrip (message : Py.str) :
  Forall (fun c => 32 <= c <= 126) message ->
  ~ In 0 message ->
  Nat.Even (length message) ->
  concat (map decode_word (StorageSender.encode message)) = message.
Proof.
  intros Hp _ [n Hn].
  apply (roundtrip_by_pairs n); [exact Hn|].
  eapply Forall_impl; [|exact Hp].
  intros c Hc. unfold Py.printable. cbn beta in Hc |- *.
  apply andb_true_intro. split; apply Z.leb_le; lia.
Qed.

Lemma decode_encode_roundtrip_witness :
  concat (map decode_word (StorageSender.encode (Py.lit "Help")))
  = Py.lit "Help".
Proof.
  apply decode_encode_roundtrip.
  - cbn. repeat (apply Forall_cons; [lia|]). apply Forall_nil.
  - cbn. intros [H|[H|[H|[H|[]]]]]; discriminate H.
  - exists 2%nat. reflexivity.
Defined.

End StorageCodec.

(** ** The storage stream decoder *)

Section StorageStream.

Import StorageReceiver.

Lemma eq_last_same (w : Z) : eq_last w (Some w) = true.
Proof. apply Z.eqb_refl. Qed.

(** A packet whose TTL differs only moves the filter counter. *)
Lemma callback_filtered (now : Q) (w other_ttl : Z) (s : t) :
  other_ttl <> expected_ttl s ->
  packet_callback now (Some (mkIP w other_ttl)) s
  = mk (expected_ttl s) (decoded_bytes s) (start_time s) (packet_count s)
       (last_packet_id s) (system_packets_filtered s + 1).
Proof.
  intros Hne. unfold packet_callback. cbn [id ttl].
  apply Z.eqb_neq in Hne. rewrite Hne. reflexivity.
Qed.

(** A packet with the expected TTL and a new word. *)
Lemma callback_accepted (now : Q) (w : Z) (s : t) :
  eq_last w (last_packet_id s) = false ->
  packet_callback now (Some (mkIP w (expected_ttl s))) s
  = mk (expected_ttl s) (decoded_bytes s ++ Spec.payload w)
       (Some match start_time s with None => now | Some t0 => t0 end)
       (packet_count s + (if w =? eof_threshold then 0 else 1))
       (Some w) (system_packets_filtered s).
Proof.
  intros Hnew. unfold packet_callback. cbn [id ttl].
  rewrite Z.eqb_refl, Hnew. cbn [negb]. unfold Spec.payload.
  destruct (w =? eof_threshold), (start_time s);
    rewrite ?app_nil_r, ?Z.add_0_r; reflexivity.
Qed.

(** A packet with the expected TTL that repeats the last word. *)
Lemma callback_duplicate (now : Q) (w : Z) (s : t) :
  eq_last w (last_packet_id s) = true ->
  packet_callback now (Some (mkIP w (expected_ttl s))) s = s.
Proof.
  intros Hdup. unfold packet_callback. cbn [id ttl].
  rewrite Z.eqb_refl, Hdup. reflexivity.
Qed.

Lemma callback_keeps_ttl (now : Q) (pkt : packet) (s : t) :
  expected_ttl (packet_callback now pkt s) = expected_ttl s.
Proof.
  unfold packet_callback. destruct pkt as [ip|]; [|reflexivity].
  destruct (negb (ttl ip =? expected_ttl s)); [reflexivity|].
  destruct (eq_last (id ip) (last_packet_id s)); [reflexivity|].
  destruct (id ip =? eof_threshold); reflexivity.
Qed.

Lemma callback_printable (now : Q) (pkt : packet) (s : t) :
  Forall (fun c => Py.printable c = true) (decoded_bytes s) ->
  Forall (fun c => Py.printable c = true)
         (decoded_bytes (packet_callback now pkt s)).
Proof.
  intros Hs. unfold packet_callback. destruct pkt as [ip|]; [|exact Hs].
  destruct (negb (ttl ip =? expected_ttl s)); [exact Hs|].
  destruct (eq_last (id ip) (last_packet_id s)); [exact Hs|].
  destruct (id ip =? eof_threshold); [exact Hs|].
  cbn [decoded_bytes]. apply Forall_app. split; [exact Hs|].
  apply decode_word_printable.
Qed.

Lemma run_printable (events : list sniff_event) :
  forall s : t,
    Forall (fun c => Py.printable c = true) (decoded_bytes s) ->
    Forall (fun c => Py.printable c = true)
           (decoded_bytes (final_state (run events s))).
Proof.
  induction events as [|ev events IH]; intros s Hs; [exact Hs|].
  destruct ev as [now pkt|e now|].
  - cbn [run]. apply IH. now apply callback_printable.
  - cbn [run]. destruct e; exact Hs.
  - exact Hs.
Qed.

(** Whatever ends [sniff] with an exception, [run] returns with the
    report over the state reached so far. *)
Lemma run_reports_on_raise (deliveries : list (Q * packet)) (e : Py.exn)
      (now : Q) (later : list sniff_event) :
  forall s : t,
    let s' := fold_left (fun s d => packet_callback (fst d) (snd d) s)
                        deliveries s in
    run (map (fun d => Deliver (fst d) (snd d)) deliveries
           ++ Raise e now :: later) s
    = Returned s' e (print_results now s').
Proof.
  induction deliveries as [|d ds IH]; intros s.
  - cbn. destruct e; reflexivity.
  - cbn [map app run fold_left]. apply IH.
Qed.

(** When [sniff] returns, [run] ends with the state reached so far and
    no report. *)
Lemma run_ends_on_return (deliveries : list (Q * packet))
      (later : list sniff_event) :
  forall s : t,
    run (map (fun d => Deliver (fst d) (snd d)) deliveries
           ++ Returns :: later) s
    = Ended (fold_left (fun s d => packet_callback (fst d) (snd d) s)
                       deliveries s).
Proof.
  induction deliveries as [|d ds IH]; intros s; [reflexivity|].
  cbn [map app run fold_left]. apply IH.
Qed.

Lemma print_results_unstarted (now : Q) (s : t) :
  start_time s = None -> print_results now s = No_packets_received.
Proof. intros H. unfold print_results. now rewrite H. Qed.

(** An accepted EOF word adds no character and leaves the packet
    counter alone. *)
Lemma callback_eof (now : Q) (s : t) :
  let s' := packet_callback now (Some (mkIP eof_threshold (expected_ttl s))) s in
  decoded_bytes s' = decoded_bytes s /\ packet_count s' = packet_count s.
Proof.
  cbn zeta. unfold packet_callback. cbn [id ttl].
  rewrite Z.eqb_refl. cbn [negb].
  destruct (eq_last eof_threshold (last_packet_id s)); [split; reflexivity|].
  rewrite Z.eqb_refl. split; reflexivity.
Qed.

Lemma feed_cons (o : Q * (Z * Z)) (obs : list (Q * (Z * Z))) (s : t) :
  feed (o :: obs) s
  = feed obs (packet_callback (fst o) (Some (mkIP (fst (snd o)) (snd (snd o)))) s).
Proof. reflexivity. Qed.

Lemma feed_lossless (ws : list Z) :
  forall s : t,
    decoded_bytes (feed (Spec.lossless (expected_ttl s) ws) s)
    = decoded_bytes s
      ++ concat (map Spec.payload (Spec.squash (last_packet_id s) ws)).
Proof.
  induction ws as [|w ws IH]; intros s.
  - cbn. now rewrite app_nil_r.
  - cbn [Spec.lossless map]. rewrite feed_cons. cbn [fst snd Spec.squash].
    destruct (eq_last w (last_packet_id s)) eqn:Hdup.
    + rewrite callback_duplicate by exact Hdup. apply IH.
    + rewrite callback_accepted by exact Hdup.
      set (s1 := mk _ _ _ _ _ _).
      change (expected_ttl s) with (expected_ttl s1).
      unfold Spec.lossless in IH. rewrite IH. subst s1.
      cbn [decoded_bytes last_packet_id map concat].
      now rewrite app_assoc.
Qed.

Lemma squash_no_repeat (ws : list Z) :
  forall last : option Z,
    Spec.has_repeat (Spec.squash last ws) = false
    /\ match Spec.squash last ws with
       | [] => True
       | w :: _ => eq_last w last = false
       end.
Proof.
  induction ws as [|w ws IH]; intros last; [split; [reflexivity|exact I]|].
  cbn [Spec.squash]. destruct (eq_last w last) eqn:Hw; [apply IH|].
  split; [|exact Hw].
  destruct (IH (Some w)) as [Hrep Hhead].
  cbn [Spec.has_repeat]. destruct (Spec.squash (Some w) ws) as [|w' rest].
  - reflexivity.
  - cbn [eq_last] in Hhead. rewrite Z.eqb_sym, Hhead. exact Hrep.
Qed.

Lemma squash_length (ws : list Z) :
  forall last : option Z,
    (length (Spec.squash last ws) <= length ws)%nat.
Proof.
  induction ws as [|w ws IH]; intros last; [reflexivity|].
  cbn [Spec.squash]. destruct (eq_last w last); cbn [length].
  - specialize (IH last). lia.
  - specialize (IH (Some w)). lia.
Qed.

Lemma has_repeat_cons (w w' : Z) (ws : list Z) :
  Spec.has_repeat (w :: w' :: ws) = (w =? w') || Spec.has_repeat (w' :: ws).
Proof. reflexivity. Qed.

Lemma squash_shrinks (ws : list Z) :
  forall last : option Z,
    Spec.has_repeat ws = true ->
    (length (Spec.squash last ws) < length ws)%nat.
Proof.
  induction ws as [|w ws IH]; intros last Hrep; [discriminate|].
  destruct ws as [|w' ws']; [discriminate|].
  rewrite has_repeat_cons in Hrep.
  remember (w' :: ws') as tl eqn:Htl.
  cbn [Spec.squash length]. destruct (eq_last w last).
  - pose proof (squash_length tl last). lia.
  - destruct (w =? w') eqn:Hww.
    + apply Z.eqb_eq in Hww. subst w' tl. cbn [Spec.squash].
      rewrite eq_last_same.
      pose proof (squash_length ws' (Some w)). cbn [length]. lia.
    + cbn [orb] in Hrep. specialize (IH (Some w) Hrep).
      cbn [length]. lia.
Qed.

Lemma payload_length (w : Z) : (length (Spec.payload w) <= 2)%nat.
Proof.
  unfold Spec.payload. destruct (w =? eof_threshold); [cbn; lia|].
  apply decode_word_length.
Qed.

Lemma payloads_length (ws : list Z) :
  (length (concat (map Spec.payload ws)) <= 2 * length ws)%nat.
Proof.
  induction ws as [|w ws IH]; [reflexivity|].
  cbn [map concat length]. rewrite length_app.
  pose proof (payload_length w). lia.
Qed.

End StorageStream.

Section StorageStreamClaims.

Import StorageReceiver.

(** C8. An observation with the expected TTL whose word equals the last
    accepted word leaves the whole session as it was.  A session that
    has accepted nothing yet never suppresses: the observation is taken,
    its word becomes the last accepted one and its characters are
    appended.  The stream (0x4142,42), (0x4142,42), (0x4344,42) with
    expected TTL 42 decodes to "ABCD", which is not "ABABCD". *)
Theorem duplicate_word_is_ignored :
  (forall (now : Q) (w ttl : Z) d st c f,
      packet_callback now (Some (mkIP w ttl)) (mk ttl d st c (Some w) f)
      = mk ttl d st c (Some w) f)
  /\ (forall (now : Q) (w ttl : Z) d st c f,
         packet_callback now (Some (mkIP w ttl)) (mk ttl d st c None f)
         = mk ttl (d ++ Spec.payload w)
              (Some match st with None => now | Some t0 => t0 end)
              (c + (if w =? eof_threshold then 0 else 1)) (Some w) f)
  /\ (forall t1 t2 t3 : Q,
         decoded_bytes
           (feed [(t1, (0x4142, 42)); (t2, (0x4142, 42)); (t3, (0x4344, 42))]
                 (init 42))
         = Py.lit "ABCD")
  /\ Py.lit "ABCD" <> Py.lit "ABABCD".
Proof.
  repeat split.
  - intros now w ttl0 d st c f.
    apply (callback_duplicate now w (mk ttl0 d st c (Some w) f)).
    apply eq_last_same.
  - intros now w ttl0 d st c f.
    apply (callback_accepted now w (mk ttl0 d st c None f)). reflexivity.
  - discriminate.
Qed.

(** C10. Over a lossless, duplicate-free transport the stream decoder
    decodes the sender's words with every word equal to its predecessor
    left out, so it never decodes two equal words in a row; a message
    whose encoding holds two equal adjacent words (as "abab" does) does
    not come out of the stream decoder. *)
Theorem repeated_chunk_is_lost (ttl0 : Z) (message : Py.str) :
  Spec.has_repeat (StorageSender.encode message) = true ->
  let ws := StorageSender.encode message in
  let s := feed (Spec.lossless ttl0 ws) (init ttl0) in
  decoded_bytes s = concat (map Spec.payload (Spec.squash None ws))
  /\ Spec.has_repeat (Spec.squash None ws) = false
  /\ decoded_bytes s <> message.
Proof.
  intros Hrep ws s.
  assert (Hdec : decoded_bytes s
                 = concat (map Spec.payload (Spec.squash None ws))).
  { subst s. apply (feed_lossless ws (init ttl0)). }
  split; [exact Hdec|]. split; [apply squash_no_repeat|].
  intros Heq.
  assert (Hlen : length (decoded_bytes s) = length message) by now rewrite Heq.
  rewrite Hdec in Hlen.
  pose proof (payloads_length (Spec.squash None ws)) as Hp.
  pose proof (squash_shrinks ws None Hrep) as Hs.
  pose proof (encode_length message) as He. fold ws in He.
  pose proof (Nat.Div0.mul_div_le (length message + 1) 2) as Hd.
  lia.
Qed.

Lemma repeated_chunk_is_lost_witness :
  let ws := StorageSender.encode (Py.lit "abab") in
  let s := feed (Spec.lossless 42 ws) (init 42) in
  decoded_bytes s = concat (map Spec.payload (Spec.squash None ws))
  /\ Spec.has_repeat (Spec.squash None ws) = false
  /\ decoded_bytes s <> Py.lit "abab".
Proof.
  apply (repeated_chunk_is_lost 42 (Py.lit "abab")). reflexivity.
Defined.

Lemma abab_decodes_to_ab :
  StorageSender.encode (Py.lit "abab") = [0x6162; 0x6162]
  /\ decoded_bytes
       (feed (Spec.lossless 42 (StorageSender.encode (Py.lit "abab")))
             (init 42))
     = Py.lit "ab".
Proof. split; reflexivity. Qed.

(** C5. The session does not stop at an accepted EOF word: after
    (0x4142,42), (0xFFFF,42) the session holds "AB" and one packet, and
    the following (0x4344,42) is decoded, giving "ABCD" and two
    packets. *)
Theorem decoding_continues_after_eof (t1 t2 t3 : Q) :
  let at_eof := feed [(t1, (0x4142, 42)); (t2, (0xFFFF, 42))] (init 42) in
  let after := feed [(t3, (0x4344, 42))] at_eof in
  decoded_bytes at_eof = Py.lit "AB" /\ packet_count at_eof = 1
  /\ last_packet_id at_eof = Some eof_threshold
  /\ decoded_bytes after = Py.lit "ABCD" /\ packet_count after = 2
  /\ after <> at_eof.
Proof.
  cbn zeta. repeat split. discriminate.
Qed.

End StorageStreamClaims.

(** ** The timing receiver: bits to text *)

Section TimingAssembly.

Import TimingReceiver.

Lemma int2_byte (b7 b6 b5 b4 b3 b2 b1 b0 : bool) :
  int2 [b7; b6; b5; b4; b3; b2; b1; b0]
  = 128 * Z.b2z b7 + 64 * Z.b2z b6 + 32 * Z.b2z b5 + 16 * Z.b2z b4
    + 8 * Z.b2z b3 + 4 * Z.b2z b2 + 2 * Z.b2z b1 + Z.b2z b0.
Proof.
  unfold int2. cbn [fold_left]. unfold Z.b2z. ring.
Qed.

Lemma bits_to_message_nil : bits_to_message [] = [].
Proof. reflexivity. Qed.

Lemma bits_to_message_byte (b7 b6 b5 b4 b3 b2 b1 b0 : bool)
      (rest : list bool) :
  bits_to_message (b7 :: b6 :: b5 :: b4 :: b3 :: b2 :: b1 :: b0 :: rest)
  = (128 * Z.b2z b7 + 64 * Z.b2z b6 + 32 * Z.b2z b5 + 16 * Z.b2z b4
     + 8 * Z.b2z b3 + 4 * Z.b2z b2 + 2 * Z.b2z b1 + Z.b2z b0)
      :: bits_to_message rest.
Proof.
  unfold bits_to_message.
  change (b7 :: b6 :: b5 :: b4 :: b3 :: b2 :: b1 :: b0 :: rest)
    with ([b7; b6; b5; b4; b3; b2; b1; b0] ++ rest).
  rewrite chunks_app by (reflexivity || lia).
  cbn [filter length Nat.eqb map]. unfold Py.chr at 1.
  now rewrite int2_byte.
Qed.

Lemma bits_to_message_short (bits : list bool) :
  (length bits < 8)%nat -> bits_to_message bits = [].
Proof.
  intros Hlen. unfold bits_to_message.
  destruct bits as [|b bits]; [reflexivity|].
  rewrite chunks_short by (cbn [length] in *; lia).
  cbn [filter]. replace (length (b :: bits) =? 8)%nat with false; [reflexivity|].
  symmetry. apply Nat.eqb_neq. lia.
Qed.

Lemma assemble_short (bits : list bool) :
  (length bits < 8)%nat -> assemble bits = [].
Proof.
  intros Hlen.
  do 8 (destruct bits as [|? bits]; [reflexivity|]).
  cbn [length] in Hlen. lia.
Qed.

Lemma bits_to_message_assemble_upto (n : nat) :
  forall bits : list bool,
    (length bits <= n)%nat -> bits_to_message bits = assemble bits.
Proof.
  induction n as [n IH] using lt_wf_ind. intros bits Hn.
  destruct (Nat.lt_ge_cases (length bits) 8) as [Hshort|Hlong].
  - now rewrite bits_to_message_short, assemble_short.
  - do 8 (destruct bits as [|? bits]; [cbn [length] in Hlong; lia|]).
    rewrite bits_to_message_byte. cbn [assemble]. f_equal.
    cbn [length] in Hn. apply (IH (length bits)); lia.
Qed.

Lemma bits_to_message_assemble (bits : list bool) :
  bits_to_message bits = assemble bits.
Proof. apply (bits_to_message_assemble_upto (length bits)). lia. Qed.

Lemma assemble_length_upto (n : nat) :
  forall bits : list bool,
    (length bits <= n)%nat ->
    length (assemble bits) = (length bits / 8)%nat.
Proof.
  induction n as [n IH] using lt_wf_ind. intros bits Hn.
  destruct (Nat.lt_ge_cases (length bits) 8) as [Hshort|Hlong].
  - rewrite assemble_short by exact Hshort.
    now rewrite Nat.div_small.
  - do 8 (destruct bits as [|? bits]; [cbn [length] in Hlong; lia|]).
    cbn [assemble length] in Hn |- *.
    rewrite (IH (length bits)) by lia.
    replace (S (S (S (S (S (S (S (S (length bits)))))))))
      with (length bits + 1 * 8)%nat by lia.
    rewrite Nat.div_add by lia. lia.
Qed.

Lemma assemble_range_upto (n : nat) :
  forall bits : list bool,
    (length bits <= n)%nat ->
    Forall (fun c => 0 <= c <= 255) (assemble bits).
Proof.
  induction n as [n IH] using lt_wf_ind. intros bits Hn.
  destruct (Nat.lt_ge_cases (length bits) 8) as [Hshort|Hlong].
  - rewrite assemble_short by exact Hshort. constructor.
  - do 8 (destruct bits as [|? bits]; [cbn [length] in Hlong; lia|]).
    cbn [assemble]. constructor.
    + repeat match goal with b : bool |- _ => destruct b end; cbn; lia.
    + cbn [length] in Hn. apply (IH (length bits)); lia.
Qed.

(** C9. The timing receiver turns its bits into text eight at a time,
    the first bit of each group weighing 128 and the last one 1; each
    full group becomes the character of that value, in order, and a
    tail of fewer than eight bits is dropped, so [n] bits give [n / 8]
    characters.  "0100100001100101" gives "He", and so does that string
    followed by a seventeenth bit.  The finalization of a started
    session reports exactly this text as its Message, and whole runs
    of the receiver that decode these 16 and 17 bits report "He". *)
Theorem bits_grouped_msb_first :
  (forall bits : list bool, bits_to_message bits = assemble bits)
  /\ (forall (b7 b6 b5 b4 b3 b2 b1 b0 : bool) (rest : list bool),
         bits_to_message
           (b7 :: b6 :: b5 :: b4 :: b3 :: b2 :: b1 :: b0 :: rest)
         = (128 * Z.b2z b7 + 64 * Z.b2z b6 + 32 * Z.b2z b5 + 16 * Z.b2z b4
            + 8 * Z.b2z b3 + 4 * Z.b2z b2 + 2 * Z.b2z b1 + Z.b2z b0)
             :: bits_to_message rest)
  /\ (forall bits : list bool,
         length (bits_to_message bits) = (length bits / 8)%nat)
  /\ bits_to_message (bitlit "0100100001100101") = Py.lit "He"
  /\ (forall b : bool,
         bits_to_message (bitlit "0100100001100101" ++ [b]) = Py.lit "He")
  /\ (forall (now t0 : Q) (bs : list bool) (xs : list Q) (ls : list bool)
             (prev : option Q) (e p : Z),
         exists r : summary,
           finish now (mk bs xs ls prev (Some t0) e p) = Reported r
           /\ message r = assemble bs
           /\ length (message r) = (length bs / 8)%nat
           /\ nbits r = length bs)
  /\ (forall now : Q,
         exists r : summary,
           receive_timing_channel (15 # 100)
             (map (fun k => Recv "X" (k # 10))
                  [0; 1; 3; 4; 5; 7; 8; 9; 10; 11; 13; 15; 16; 17; 19; 20; 22]
                ++ [Recv "EOF" (23 # 10); Recv "EOF" (24 # 10)])
             now
           = Reported r
           /\ message r = Py.lit "He" /\ nbits r = 16%nat)
  /\ (forall now : Q,
         exists r : summary,
           receive_timing_channel (15 # 100)
             (map (fun k => Recv "X" (k # 10))
                  [0; 1; 3; 4; 5; 7; 8; 9; 10; 11; 13; 15; 16; 17; 19; 20; 22;
                   24]
                ++ [Recv "EOF" (25 # 10); Recv "EOF" (26 # 10)])
             now
           = Reported r
           /\ message r = Py.lit "He" /\ nbits r = 17%nat).
Proof.
  split; [exact bits_to_message_assemble|].
  split; [exact bits_to_message_byte|].
  split.
  { intros bits. rewrite bits_to_message_assemble.
    apply (assemble_length_upto (length bits)). lia. }
  split; [reflexivity|].
  split.
  { intros b. rewrite bits_to_message_assemble. reflexivity. }
  split.
  { intros now t0 bs xs ls prev e p. unfold finish. cbn [start_time bits].
    eexists. split; [reflexivity|]. cbn [message nbits].
    rewrite bits_to_message_assemble. split; [reflexivity|].
    split; [|reflexivity].
    apply (assemble_length_upto (length bs)). lia. }
  split.
  - intros now. eexists. split; [vm_compute; reflexivity|].
    split; reflexivity.
  - intros now. eexists. split; [vm_compute; reflexivity|].
    split; reflexivity.
Qed.

End TimingAssembly.

(** ** Finalization and reports *)

Section Reports.

Lemma run_report_printable (events : list StorageReceiver.sniff_event) :
  forall s : StorageReceiver.t,
    Forall (fun c => Py.printable c = true) (StorageReceiver.decoded_bytes s) ->
    match StorageReceiver.run events s with
    | StorageReceiver.Returned _ _ (StorageReceiver.Results r) =>
        Forall (fun c => Py.printable c = true) (StorageReceiver.message r)
    | _ => True
    end.
Proof.
  induction events as [|ev events IH]; intros s Hs; [exact I|].
  destruct ev as [now pkt|e now|]; cbn [StorageReceiver.run].
  - apply IH. now apply callback_printable.
  - unfold StorageReceiver.print_results.
    destruct e; destruct (StorageReceiver.start_time s); try exact I;
      exact Hs.
  - exact I.
Qed.

Lemma finish_range (now : Q) (l : TimingReceiver.locals) :
  match TimingReceiver.finish now l with
  | TimingReceiver.Reported r =>
      Forall (fun c => 0 <= c <= 255) (TimingReceiver.message r)
  | _ => True
  end.
Proof.
  unfold TimingReceiver.finish.
  destruct (TimingReceiver.start_time l); [|exact I].
  cbn [TimingReceiver.message]. rewrite bits_to_message_assemble.
  apply (assemble_range_upto (length (TimingReceiver.bits l))). lia.
Qed.

Lemma loop_range (threshold : Q) (events : list TimingReceiver.recv_event)
      (now : Q) :
  forall l : TimingReceiver.locals,
    match TimingReceiver.loop threshold events now l with
    | TimingReceiver.Reported r =>
        Forall (fun c => 0 <= c <= 255) (TimingReceiver.message r)
    | _ => True
    end.
Proof.
  induction events as [|ev events IH]; intros l; [exact I|].
  destruct ev as [data current_time|e]; cbn [TimingReceiver.loop];
    [|exact I].
  destruct (TimingReceiver.iteration threshold data current_time l)
    as [l'|l'|e]; [apply IH|apply finish_range|exact I].
Qed.

(** C2. Every character of the storage decoder's message lies in
    32..126, in the running session and in the report; every character
    of the timing decoder's message lies in 0..255. *)
Theorem decoded_characters_range :
  (forall (ttl0 : Z) (events : list StorageReceiver.sniff_event),
      Forall (fun c => 32 <= c <= 126)
             (StorageReceiver.decoded_bytes
                (StorageReceiver.final_state
                   (StorageReceiver.run events (StorageReceiver.init ttl0))))
      /\ match StorageReceiver.run events (StorageReceiver.init ttl0) with
         | StorageReceiver.Returned _ _ (StorageReceiver.Results r) =>
             Forall (fun c => 32 <= c <= 126) (StorageReceiver.message r)
         | _ => True
         end)
  /\ (forall (threshold : Q) (events : list TimingReceiver.recv_event)
             (now : Q),
         match TimingReceiver.receive_timing_channel threshold events now with
         | TimingReceiver.Reported r =>
             Forall (fun c => 0 <= c <= 255) (TimingReceiver.message r)
         | _ => True
         end).
Proof.
  split.
  - intros ttl0 events. split.
    + eapply Forall_impl; [exact printable_range|].
      apply run_printable. constructor.
    + pose proof (run_report_printable events (StorageReceiver.init ttl0)
                    (Forall_nil _)) as H.
      destruct (StorageReceiver.run events (StorageReceiver.init ttl0))
        as [s|s e [|r]|s]; try exact I.
      eapply Forall_impl; [exact printable_range|exact H].
  - intros threshold events now. apply loop_range.
Qed.

(** Nine datagrams a tenth of a second apart, then two EOF markers:
    eight 0 bits, hence the character of code 0. *)
Lemma timing_message_not_printable :
  exists r : TimingReceiver.summary,
    TimingReceiver.receive_timing_channel (15 # 100)
      [TimingReceiver.Recv "X" 0; TimingReceiver.Recv "X" (1 # 10);
       TimingReceiver.Recv "X" (2 # 10); TimingReceiver.Recv "X" (3 # 10);
       TimingReceiver.Recv "X" (4 # 10); TimingReceiver.Recv "X" (5 # 10);
       TimingReceiver.Recv "X" (6 # 10); TimingReceiver.Recv "X" (7 # 10);
       TimingReceiver.Recv "X" (8 # 10); TimingReceiver.Recv "EOF" 1;
       TimingReceiver.Recv "EOF" 2] 2
    = TimingReceiver.Reported r
    /\ TimingReceiver.message r = [0]
    /\ ~ Forall (fun c => 32 <= c <= 126) (TimingReceiver.message r).
Proof.
  eexists. split; [vm_compute; reflexivity|].
  split; [reflexivity|].
  cbn [TimingReceiver.message]. intros H. inversion H as [|? ? Hc _]. lia.
Qed.

(** C1. A storage session that has started reports, as throughput,
    eight times the number of decoded characters divided by the elapsed
    seconds, and 0 when the elapsed time is not positive; a timing
    session that has started reports the number of decoded bits divided
    by the elapsed seconds, and 0 when the elapsed time is not
    positive. *)
Theorem throughput_formulas (now t0 u0 : Q) (s : StorageReceiver.t)
        (l : TimingReceiver.locals) :
  StorageReceiver.start_time s = Some t0 ->
  TimingReceiver.start_time l = Some u0 ->
  (exists r : StorageReceiver.results,
      StorageReceiver.print_results now s = StorageReceiver.Results r
      /\ StorageReceiver.elapsed r = (now - t0)%Q
      /\ StorageReceiver.bps r
         = if Qlt_le_dec 0 (now - t0)
           then (inject_Z
                   (8 * Z.of_nat (length (StorageReceiver.decoded_bytes s)))
                 / (now - t0))%Q
           else 0%Q)
  /\ (exists r : TimingReceiver.summary,
         TimingReceiver.finish now l = TimingReceiver.Reported r
         /\ TimingReceiver.elapsed r = (now - u0)%Q
         /\ TimingReceiver.bps r
            = if Qlt_le_dec 0 (now - u0)
              then (inject_Z (Z.of_nat (length (TimingReceiver.bits l)))
                    / (now - u0))%Q
              else 0%Q).
Proof.
  intros Hs Hl.
  assert (Hcond : forall e : Q,
             negb (Qle_bool e 0) = if Qlt_le_dec 0 e then true else false).
  { intros e. destruct (Qlt_le_dec 0 e) as [Hlt|Hle].
    - apply negb_true_iff. destruct (Qle_bool e 0) eqn:Hb; [|reflexivity].
      apply Qle_bool_iff in Hb. exfalso. revert Hlt. now apply Qle_not_lt.
    - apply negb_false_iff. now apply Qle_bool_iff. }
  split.
  - unfold StorageReceiver.print_results. rewrite Hs. eexists.
    split; [reflexivity|]. split; [reflexivity|].
    cbn [StorageReceiver.bps]. rewrite Hcond, Z.mul_comm.
    destruct (Qlt_le_dec 0 (now - t0)); reflexivity.
  - unfold TimingReceiver.finish. rewrite Hl. eexists.
    split; [reflexivity|]. split; [reflexivity|].
    cbn [TimingReceiver.bps]. rewrite Hcond.
    destruct (Qlt_le_dec 0 (now - u0)); reflexivity.
Qed.

Lemma throughput_formulas_witness :
  let s := StorageReceiver.feed [(0%Q, (0x4100, 42))] (StorageReceiver.init 42) in
  let l := TimingReceiver.mk [true; false] [] [] (Some (1 # 2)) (Some (1 # 2)) 0 3 in
  (exists r : StorageReceiver.results,
      StorageReceiver.print_results 1 s = StorageReceiver.Results r
      /\ StorageReceiver.elapsed r = (1 - 0)%Q
      /\ StorageReceiver.bps r
         = if Qlt_le_dec 0 (1 - 0)
           then (inject_Z
                   (8 * Z.of_nat (length (StorageReceiver.decoded_bytes s)))
                 / (1 - 0))%Q
           else 0%Q)
  /\ (exists r : TimingReceiver.summary,
         TimingReceiver.finish 1 l = TimingReceiver.Reported r
         /\ TimingReceiver.elapsed r = (1 - (1 # 2))%Q
         /\ TimingReceiver.bps r
            = if Qlt_le_dec 0 (1 - (1 # 2))
              then (inject_Z (Z.of_nat (length (TimingReceiver.bits l)))
                    / (1 - (1 # 2)))%Q
              else 0%Q).
Proof.
  intros s l. apply (throughput_formulas 1 0 (1 # 2) s l); reflexivity.
Defined.

(** One word 0x4100 yields one character: after one second the report
    shows one packet and 8 bits per second, not 16. *)
Lemma throughput_not_sixteen_per_word :
  exists (s : StorageReceiver.t) (r : StorageReceiver.results),
    StorageReceiver.run
      [StorageReceiver.Deliver 0 (Some (StorageReceiver.mkIP 0x4100 42));
       StorageReceiver.Raise Py.KeyboardInterrupt 1]
      (StorageReceiver.init 42)
    = StorageReceiver.Returned s Py.KeyboardInterrupt
                               (StorageReceiver.Results r)
    /\ StorageReceiver.packets r = 1
    /\ (StorageReceiver.elapsed r == 1)%Q
    /\ (StorageReceiver.bps r == 8)%Q
    /\ ~ (StorageReceiver.bps r
          == inject_Z (StorageReceiver.packets r * 16)
             / StorageReceiver.elapsed r)%Q.
Proof.
  do 2 eexists. split; [vm_compute; reflexivity|].
  repeat split; try reflexivity.
  intros H. vm_compute in H. discriminate H.
Qed.

(** C3. Nothing in the timing receiver catches what [recvfrom] raises:
    an interrupt, a permission error or an I/O error ends
    [receive_timing_channel] with that exception and without report,
    where the storage receiver's [run] returns with its report. *)
Theorem timing_receiver_dies_on_interrupt (threshold t0 t1 now : Q)
        (e : Py.exn) :
  TimingReceiver.receive_timing_channel threshold
    [TimingReceiver.Recv "X" t0; TimingReceiver.Recv "X" t1;
     TimingReceiver.RecvRaise e] now
  = TimingReceiver.Uncaught e
  /\ exists s : StorageReceiver.t,
      StorageReceiver.run
        [StorageReceiver.Deliver t0 (Some (StorageReceiver.mkIP 0x4142 42));
         StorageReceiver.Raise e now]
        (StorageReceiver.init 42)
      = StorageReceiver.Returned s e (StorageReceiver.print_results now s)
      /\ StorageReceiver.decoded_bytes s = Py.lit "AB".
Proof.
  split; [reflexivity|].
  eexists. split.
  - apply (run_reports_on_raise
             [(t0, Some (StorageReceiver.mkIP 0x4142 42))] e now []).
  - reflexivity.
Qed.

(** C4. Two EOF markers before any data datagram end the timing
    receiver's loop with [start_time] still unset, and the elapsed-time
    subtraction raises [TypeError]: no report is made.  The storage
    receiver reports "No packets received" in the same situation. *)
Theorem timing_finalization_fails_without_data (threshold t1 t2 now : Q) :
  TimingReceiver.receive_timing_channel threshold
    [TimingReceiver.Recv "EOF" t1; TimingReceiver.Recv "EOF" t2] now
  = TimingReceiver.Uncaught Py.TypeError
  /\ forall (ttl0 : Z) (e : Py.exn),
      StorageReceiver.run [StorageReceiver.Raise e now]
                          (StorageReceiver.init ttl0)
      = StorageReceiver.Returned (StorageReceiver.init ttl0) e
                                 StorageReceiver.No_packets_received.
Proof.
  split; [reflexivity|].
  intros ttl0 e. destruct e; reflexivity.
Qed.

End Reports.

(** ** The storage codec on any message *)

Section StorageCodecMore.

Import StorageReceiver.

Lemma pack_value (a b : Z) :
  0 <= b < 256 -> StorageSender.pack [a; b] = a * 256 + b.
Proof.
  intros Hb. rewrite pack_pair.
  assert (Hdisj : Z.land (Z.shiftl a 8) b = 0).
  { replace b with (Z.land b (Z.ones 8)) at 1.
    - rewrite (Z.land_comm b), Z.land_assoc, Z.land_ones by lia.
      rewrite Z.shiftl_mul_pow2 by lia.
      rewrite Z.mod_mul by (change (2 ^ 8) with 256; lia).
      apply Z.land_0_l.
    - rewrite Z.land_ones by lia. apply Z.mod_small.
      change (2 ^ 8) with 256. lia. }
  rewrite <- Z.lxor_lor by exact Hdisj.
  rewrite <- Z.add_nocarry_lxor by exact Hdisj.
  rewrite Z.shiftl_mul_pow2 by lia. reflexivity.
Qed.

Lemma encode_single (a : Z) :
  StorageSender.encode [a] = [StorageSender.pack [a; 0]].
Proof.
  rewrite encode_chunks, chunks_short by (cbn; lia). reflexivity.
Qed.

Lemma decode_word_pack_single (a : Z) :
  Py.printable a = true -> decode_word (StorageSender.pack [a; 0]) = [a].
Proof.
  intros Ha. pose proof (printable_range a Ha).
  rewrite decode_word_unfold, pack_pair.
  rewrite hi_pack, lo_pack by lia.
  cbn [Spec.decode_bytes]. rewrite Ha.
  replace (a =? 0) with false by (symmetry; apply Z.eqb_neq; lia).
  reflexivity.
Qed.

(** [encode] follows the message two characters at a time. *)
Lemma encode_ind (P : Py.str -> list Z -> Prop) :
  P [] [] ->
  (forall a, P [a] [StorageSender.pack [a; 0]]) ->
  (forall a b rest ws,
      P rest ws -> P (a :: b :: rest) (StorageSender.pack [a; b] :: ws)) ->
  forall message, P message (StorageSender.encode message).
Proof.
  intros Hnil Hone Hpair message.
  remember (length message) as n eqn:Hn. revert message Hn.
  induction n as [n IH] using lt_wf_ind. intros message Hn.
  destruct message as [|a [|b rest]].
  - exact Hnil.
  - rewrite encode_single. apply Hone.
  - rewrite encode_pair. apply Hpair.
    apply (IH (length rest)); [cbn [length] in Hn; lia|reflexivity].
Qed.

Lemma decode_encode_any_length_aux (message : Py.str) :
  Forall (fun c => 32 <= c <= 126) message ->
  concat (map decode_word (StorageSender.encode message)) = message.
Proof.
  apply (encode_ind
           (fun m ws => Forall (fun c => 32 <= c <= 126) m ->
                        concat (map decode_word ws) = m)).
  - reflexivity.
  - intros a Ha. inversion Ha as [|? ? Hr _]; subst.
    cbn [map concat]. rewrite decode_word_pack_single; [reflexivity|].
    unfold Py.printable. apply andb_true_intro. split; apply Z.leb_le; lia.
  - intros a b rest ws IH Hm.
    inversion Hm as [|? ? Ha Hm1]; subst.
    inversion Hm1 as [|? ? Hb Hrest]; subst.
    cbn [map concat]. rewrite (IH Hrest).
    rewrite decode_word_pack; [reflexivity| |];
      unfold Py.printable; apply andb_true_intro; split; apply Z.leb_le; lia.
Qed.

(** X1. The codec round trip holds for printable messages of any
    length: the null character that pads a message of odd length ends
    the scan of the last word and is not decoded. *)
Theorem decode_encode_any_length (message : Py.str) :
  Forall (fun c => 32 <= c <= 126) message ->
  concat (map decode_word (StorageSender.encode message)) = message.
Proof. exact (decode_encode_any_length_aux message). Qed.

Lemma decode_encode_any_length_witness :
  concat (map decode_word (StorageSender.encode (Py.lit "Hey"))) = Py.lit "Hey".
Proof.
  apply decode_encode_any_length.
  cbn. repeat (apply Forall_cons; [lia|]). apply Forall_nil.
Defined.

(** X2. Characters below 256 give words that fit the 16-bit IP_ID
    field, and the EOF value 0xFFFF is among them only if the message
    holds the character of code 255. *)
Theorem encoded_words_fit_ip_id (message : Py.str) :
  Forall (fun c => 0 <= c <= 255) message ->
  Forall (fun w => 0 <= w <= 65535) (StorageSender.encode message)
  /\ (In eof_threshold (StorageSender.encode message) -> In 255 message).
Proof.
  apply (encode_ind
           (fun m ws => Forall (fun c => 0 <= c <= 255) m ->
                        Forall (fun w => 0 <= w <= 65535) ws
                        /\ (In eof_threshold ws -> In 255 m))).
  - intros _. split; [constructor|intros []].
  - intros a Ha. inversion Ha as [|? ? Hr _]; subst.
    rewrite pack_value by lia. unfold eof_threshold. split.
    + constructor; [lia|constructor].
    + intros [H|[]]. lia.
  - intros a b rest ws IH Hm.
    inversion Hm as [|? ? Ha Hm1]; subst.
    inversion Hm1 as [|? ? Hb Hrest]; subst.
    destruct (IH Hrest) as [Hws Heof].
    rewrite pack_value by lia. unfold eof_threshold in *. split.
    + constructor; [lia|exact Hws].
    + intros [H|H]; [left; lia|right; right; exact (Heof H)].
Qed.

Lemma encoded_words_fit_ip_id_witness :
  Forall (fun w => 0 <= w <= 65535) (StorageSender.encode (Py.lit "Hey"))
  /\ (In eof_threshold (StorageSender.encode (Py.lit "Hey"))
      -> In 255 (Py.lit "Hey")).
Proof.
  apply encoded_words_fit_ip_id.
  cbn. repeat (apply Forall_cons; [lia|]). apply Forall_nil.
Defined.

End StorageCodecMore.

(** ** Storage sessions: filtering, clock and counters *)

Section StorageSessionFacts.

Import StorageReceiver.

Lemma add_filtered_zero (s : t) : StorageSession.add_filtered 0 s = s.
Proof.
  destruct s. unfold StorageSession.add_filtered. cbn.
  now rewrite Z.add_0_r.
Qed.

Lemma add_filtered_twice (n m : Z) (s : t) :
  StorageSession.add_filtered n (StorageSession.add_filtered m s)
  = StorageSession.add_filtered (m + n) s.
Proof.
  unfold StorageSession.add_filtered. cbn. f_equal. lia.
Qed.

Lemma callback_add_filtered (now : Q) (pkt : packet) (n : Z) (s : t) :
  packet_callback now pkt (StorageSession.add_filtered n s)
  = StorageSession.add_filtered n (packet_callback now pkt s).
Proof.
  unfold packet_callback, StorageSession.add_filtered.
  destruct pkt as [ip|]; [|reflexivity]. cbn.
  destruct (negb (ttl ip =? expected_ttl s)); [cbn; f_equal; lia|].
  destruct (eq_last (id ip) (last_packet_id s)); [reflexivity|].
  destruct (id ip =? eof_threshold); reflexivity.
Qed.

Lemma feed_add_filtered (obs : list (Q * (Z * Z))) :
  forall (n : Z) (s : t),
    feed obs (StorageSession.add_filtered n s)
    = StorageSession.add_filtered n (feed obs s).
Proof.
  induction obs as [|o obs IH]; intros n s; [reflexivity|].
  rewrite !feed_cons, callback_add_filtered. apply IH.
Qed.

Lemma feed_app (obs1 obs2 : list (Q * (Z * Z))) (s : t) :
  feed (obs1 ++ obs2) s = feed obs2 (feed obs1 s).
Proof. unfold feed. apply fold_left_app. Qed.

(** X3. Observations with another TTL do nothing but move the filter
    counter: a stream leaves the session where the stream without them
    leaves it, with the counter raised by their number. *)
Theorem foreign_ttl_only_counted (obs : list (Q * (Z * Z))) :
  forall s : t,
    let kept := filter (StorageSession.has_ttl (expected_ttl s)) obs in
    feed obs s
    = StorageSession.add_filtered (Z.of_nat (length obs - length kept))
                                  (feed kept s).
Proof.
  induction obs as [|o obs IH]; intros s; cbn zeta.
  - cbn. now rewrite add_filtered_zero.
  - cbn [filter]. rewrite feed_cons.
    pose proof (filter_length_le (StorageSession.has_ttl (expected_ttl s)) obs)
      as Hle.
    destruct (StorageSession.has_ttl (expected_ttl s) o) eqn:Ho.
    + rewrite feed_cons. rewrite IH. cbn zeta.
      rewrite callback_keeps_ttl. cbn [length]. reflexivity.
    + unfold StorageSession.has_ttl in Ho. apply Z.eqb_neq in Ho.
      rewrite callback_filtered by exact Ho.
      change (mk (expected_ttl s) (decoded_bytes s) (start_time s)
                 (packet_count s) (last_packet_id s)
                 (system_packets_filtered s + 1))
        with (StorageSession.add_filtered 1 s).
      rewrite feed_add_filtered, IH. cbn zeta.
      rewrite add_filtered_twice. cbn [length]. f_equal. lia.
Qed.

Lemma callback_keeps_start (now t0 : Q) (pkt : packet) (s : t) :
  start_time s = Some t0 -> start_time (packet_callback now pkt s) = Some t0.
Proof.
  intros Hs. unfold packet_callback. destruct pkt as [ip|]; [|exact Hs].
  destruct (negb (ttl ip =? expected_ttl s)); [exact Hs|].
  destruct (eq_last (id ip) (last_packet_id s)); [exact Hs|].
  destruct (id ip =? eof_threshold); cbn [start_time]; now rewrite Hs.
Qed.

(** X4. The clock is started once.  When the session has a start time,
    no packet, EOF words included, moves it, so the elapsed time of the
    report is counted from the first accepted packet. *)
Theorem start_time_set_once (events : list sniff_event) :
  forall (s : t) (t0 : Q),
    start_time s = Some t0 ->
    start_time (final_state (run events s)) = Some t0.
Proof.
  induction events as [|ev events IH]; intros s t0 Hs; [exact Hs|].
  destruct ev as [now pkt|e now|]; cbn [run].
  - apply IH. now apply callback_keeps_start.
  - destruct e; exact Hs.
  - exact Hs.
Qed.

Lemma start_time_set_once_witness :
  start_time
    (final_state
       (run [Deliver 5 (Some (mkIP 0x4344 42));
             Deliver 6 (Some (mkIP 0xFFFF 42));
             Raise Py.KeyboardInterrupt 9]
            (feed [(1%Q, (0x4142, 42))] (init 42))))
  = Some 1%Q.
Proof.
  apply start_time_set_once. reflexivity.
Defined.

Lemma callback_counts (now : Q) (pkt : packet) (s : t) :
  let s' := packet_callback now pkt s in
  packet_count s <= packet_count s'
  /\ system_packets_filtered s <= system_packets_filtered s'
  /\ (packet_count s' - packet_count s)
     + (system_packets_filtered s' - system_packets_filtered s) <= 1
  /\ Z.of_nat (length (decoded_bytes s'))
     <= Z.of_nat (length (decoded_bytes s))
        + 2 * (packet_count s' - packet_count s).
Proof.
  cbn zeta. unfold packet_callback. destruct pkt as [ip|]; [|lia].
  destruct (negb (ttl ip =? expected_ttl s));
    [cbn [packet_count system_packets_filtered decoded_bytes]; lia|].
  destruct (eq_last (id ip) (last_packet_id s)); [lia|].
  destruct (id ip =? eof_threshold);
    cbn [packet_count system_packets_filtered decoded_bytes]; [lia|].
  rewrite length_app. pose proof (decode_word_length (id ip)). lia.
Qed.

Lemma run_counts (events : list sniff_event) :
  forall s : t,
    let s' := final_state (run events s) in
    packet_count s <= packet_count s'
    /\ system_packets_filtered s <= system_packets_filtered s'
    /\ (packet_count s' - packet_count s)
       + (system_packets_filtered s' - system_packets_filtered s)
       <= Z.of_nat (length events)
    /\ Z.of_nat (length (decoded_bytes s'))
       <= Z.of_nat (length (decoded_bytes s))
          + 2 * (packet_count s' - packet_count s).
Proof.
  induction events as [|ev events IH]; intros s; cbn zeta.
  - cbn [run final_state length]. lia.
  - destruct ev as [now pkt|e now|]; cbn [run].
    + specialize (IH (packet_callback now pkt s)). cbn zeta in IH.
      pose proof (callback_counts now pkt s) as Hc. cbn zeta in Hc.
      cbn [length]. lia.
    + destruct e; cbn [final_state length]; lia.
    + cbn [final_state length]. lia.
Qed.

(** X5. In every session started by [__init__] the counters are never
    negative, together they never exceed the number of events [sniff]
    produced, and the message never holds more than two characters per
    counted packet. *)
Theorem session_counters_bounded (ttl0 : Z) (events : list sniff_event) :
  let s := final_state (run events (init ttl0)) in
  0 <= packet_count s
  /\ 0 <= system_packets_filtered s
  /\ packet_count s + system_packets_filtered s <= Z.of_nat (length events)
  /\ Z.of_nat (length (decoded_bytes s)) <= 2 * packet_count s.
Proof.
  pose proof (run_counts events (init ttl0)) as H. cbn zeta in H |- *.
  cbn [init packet_count system_packets_filtered decoded_bytes length] in H.
  lia.
Qed.

End StorageSessionFacts.

(** ** Storage: the empty report, and sender to receiver *)

Section StorageEndToEnd.

Import StorageReceiver.

Lemma callback_unstarted (now : Q) (pkt : packet) (s : t) :
  (start_time s = None -> last_packet_id s = None) ->
  let s1 := packet_callback now pkt s in
  (start_time s1 = None -> last_packet_id s1 = None)
  /\ (start_time s1 = None
      <-> start_time s = None
          /\ StorageSession.ip_with_ttl (expected_ttl s) (now, pkt) = false).
Proof.
  intros Hinv. cbn zeta.
  unfold packet_callback, StorageSession.ip_with_ttl. cbn [snd].
  destruct pkt as [ip|].
  - destruct (ttl ip =? expected_ttl s) eqn:Hm; cbn [negb].
    + destruct (start_time s) as [t0|] eqn:Hst.
      * assert (Hs : forall x : t, start_time x = Some t0 ->
                                   start_time x = None -> last_packet_id x = None)
          by (intros x Hx Hn; rewrite Hx in Hn; discriminate Hn).
        destruct (eq_last (id ip) (last_packet_id s)).
        -- split; [now apply (Hs s)|]. rewrite Hst.
           split; [discriminate|intros [H _]; discriminate H].
        -- destruct (id ip =? eof_threshold); cbn [start_time last_packet_id];
             (split; [discriminate|
                      split; [discriminate|intros [H _]; discriminate H]]).
      * rewrite (Hinv eq_refl). cbn [eq_last].
        destruct (id ip =? eof_threshold); cbn [start_time last_packet_id];
          (split; [discriminate|
                   split; [discriminate|intros [_ H]; discriminate H]]).
    + cbn [start_time last_packet_id]. split; [exact Hinv|].
      split; [intros H; split; [exact H|reflexivity]|intros [H _]; exact H].
  - split; [exact Hinv|].
    split; [intros H; split; [exact H|reflexivity]|intros [H _]; exact H].
Qed.

Lemma fold_unstarted (ds : list (Q * packet)) :
  forall s : t,
    (start_time s = None -> last_packet_id s = None) ->
    let s' := fold_left (fun s d => packet_callback (fst d) (snd d) s) ds s in
    (start_time s' = None
     <-> start_time s = None
         /\ existsb (StorageSession.ip_with_ttl (expected_ttl s)) ds = false).
Proof.
  induction ds as [|[now pkt] ds IH]; intros s Hinv; cbn zeta.
  - cbn. split; [intros H; split; [exact H|reflexivity]|intros [H _]; exact H].
  - cbn [fold_left existsb fst snd].
    destruct (callback_unstarted now pkt s Hinv) as [Hinv1 Hiff1].
    set (s1 := packet_callback now pkt s) in *.
    assert (Httl : expected_ttl s1 = expected_ttl s)
      by apply callback_keeps_ttl.
    specialize (IH s1 Hinv1). cbn zeta in IH. rewrite Httl in IH.
    rewrite IH, Hiff1, orb_false_iff. tauto.
Qed.

(** X6. In a session started by [__init__]: when [sniff] raises to
    [run], [run] returns with a report, and the report is "No packets
    received" exactly when no delivered packet had an IP layer with the
    expected TTL, one accepted packet, even an EOF word, giving the
    full report; when [sniff] returns instead, [run] ends without any
    report. *)
Theorem empty_report_iff_nothing_accepted (ttl0 : Z)
        (ds : list (Q * packet)) (later : list sniff_event) :
  (forall (e : Py.exn) (now : Q),
      match run (map (fun d => Deliver (fst d) (snd d)) ds
                   ++ Raise e now :: later) (init ttl0) with
      | Returned _ _ No_packets_received =>
          existsb (StorageSession.ip_with_ttl ttl0) ds = false
      | Returned _ _ (Results _) =>
          existsb (StorageSession.ip_with_ttl ttl0) ds = true
      | Sniffing _ => False
      | Ended _ => False
      end)
  /\ run (map (fun d => Deliver (fst d) (snd d)) ds ++ Returns :: later)
         (init ttl0)
     = Ended (fold_left (fun s d => packet_callback (fst d) (snd d) s)
                        ds (init ttl0)).
Proof.
  split; [|apply run_ends_on_return].
  intros e now. rewrite run_reports_on_raise.
  pose proof (fold_unstarted ds (init ttl0) (fun _ => eq_refl)) as H.
  cbn zeta in H. cbn [init expected_ttl start_time] in H.
  set (s' := fold_left _ ds _) in *.
  unfold print_results. destruct (start_time s') as [t0|].
  - destruct (existsb (StorageSession.ip_with_ttl ttl0) ds); [reflexivity|].
    destruct H as [_ H]. specialize (H (conj eq_refl eq_refl)). discriminate.
  - apply H. reflexivity.
Qed.

Lemma squash_fixed (ws : list Z) :
  forall last : option Z,
    Spec.squash last ws = ws ->
    match ws with
    | [] => True
    | w :: ws' => eq_last w last = false /\ Spec.squash (Some w) ws' = ws'
    end.
Proof.
  destruct ws as [|w ws']; intros last H; [exact I|].
  cbn [Spec.squash] in H. destruct (eq_last w last).
  - pose proof (squash_length ws' last) as Hl. rewrite H in Hl.
    cbn [length] in Hl. lia.
  - split; [reflexivity|]. injection H as H'. exact H'.
Qed.

Lemma squash_without_repeat (ws : list Z) :
  forall last : option Z,
    Spec.has_repeat ws = false ->
    match ws with
    | [] => True
    | w :: _ => eq_last w last = false
    end ->
    Spec.squash last ws = ws.
Proof.
  induction ws as [|w ws IH]; intros last Hrep Hhead; [reflexivity|].
  cbn [Spec.squash]. rewrite Hhead. f_equal.
  destruct ws as [|w' ws']; [reflexivity|].
  rewrite has_repeat_cons in Hrep. apply orb_false_iff in Hrep.
  destruct Hrep as [Hww Hrep].
  apply IH; [exact Hrep|]. cbn [eq_last]. now rewrite Z.eqb_sym.
Qed.

Lemma last_cons_default {A : Type} (l : list A) :
  forall a d : A, last (a :: l) d = last l a.
Proof.
  induction l as [|b l IH]; intros a d; [reflexivity|].
  change (last (a :: b :: l) d) with (last (b :: l) d).
  now rewrite !IH.
Qed.

(** A stream of new data words, all with the session's TTL. *)
Lemma feed_fresh (ws : list Z) :
  forall (obs : list (Q * (Z * Z))) (s : t),
    map snd obs = map (fun w => (w, expected_ttl s)) ws ->
    Spec.squash (last_packet_id s) ws = ws ->
    Forall (fun w => w <> eof_threshold) ws ->
    let s' := feed obs s in
    expected_ttl s' = expected_ttl s
    /\ decoded_bytes s' = decoded_bytes s ++ concat (map decode_word ws)
    /\ packet_count s' = packet_count s + Z.of_nat (length ws)
    /\ last_packet_id s' = last (map Some ws) (last_packet_id s)
    /\ system_packets_filtered s' = system_packets_filtered s
    /\ start_time s'
       = match start_time s, obs with
         | Some t0, _ => Some t0
         | None, o :: _ => Some (fst o)
         | None, [] => None
         end.
Proof.
  induction ws as [|w ws IH]; intros obs s Hobs Hsq Hne; cbn zeta.
  - destruct obs; [|discriminate].
    cbn [feed fold_left map concat length last Z.of_nat].
    rewrite app_nil_r, Z.add_0_r.
    destruct (start_time s); repeat split; reflexivity.
  - destruct obs as [|[now [w0 ttl0]] obs]; [discriminate|].
    cbn [map snd] in Hobs. inversion Hobs as [[Hw Httl Hrest]]. subst w0 ttl0.
    apply squash_fixed in Hsq. destruct Hsq as [Hnew Hsq].
    inversion Hne as [|? ? Hw Hne']; subst.
    rewrite feed_cons. cbn [fst snd].
    rewrite callback_accepted by exact Hnew.
    unfold Spec.payload.
    replace (w =? eof_threshold) with false
      by (symmetry; now apply Z.eqb_neq).
    set (s1 := mk _ _ _ _ _ _).
    specialize (IH obs s1 Hrest Hsq Hne'). cbn zeta in IH.
    destruct IH as (H1 & H2 & H3 & H4 & H5 & H6).
    subst s1. cbn [expected_ttl decoded_bytes packet_count last_packet_id
                     system_packets_filtered start_time] in *.
    repeat split.
    + exact H1.
    + rewrite H2. cbn [map concat]. now rewrite app_assoc.
    + rewrite H3. cbn [length]. lia.
    + rewrite H4. cbn [map]. now rewrite last_cons_default.
    + exact H5.
    + rewrite H6. destruct (start_time s); reflexivity.
Qed.

Lemma encode_printable_not_eof (message : Py.str) :
  Forall (fun c => 32 <= c <= 126) message ->
  Forall (fun w => w <> eof_threshold) (StorageSender.encode message).
Proof.
  apply (encode_ind
           (fun m ws => Forall (fun c => 32 <= c <= 126) m ->
                        Forall (fun w => w <> eof_threshold) ws)).
  - constructor.
  - intros a Ha. inversion Ha as [|? ? Hr _]; subst.
    rewrite pack_value by lia. unfold eof_threshold.
    constructor; [lia|constructor].
  - intros a b rest ws IH Hm.
    inversion Hm as [|? ? Ha Hm1]; subst.
    inversion Hm1 as [|? ? Hb Hrest]; subst.
    rewrite pack_value by lia. unfold eof_threshold in *.
    constructor; [lia|exact (IH Hrest)].
Qed.

Lemma last_some_cases (ws : list Z) :
  forall d : option Z,
    last (map Some ws) d = d
    \/ exists w, In w ws /\ last (map Some ws) d = Some w.
Proof.
  induction ws as [|w ws IH]; intros d; [left; reflexivity|].
  right. cbn [map]. rewrite last_cons_default.
  destruct (IH (Some w)) as [Hd|[x [Hin Hx]]].
  - exists w. split; [left; reflexivity|exact Hd].
  - exists x. split; [right; exact Hin|exact Hx].
Qed.

(** X7. Sender to receiver.  The packets [send_storage_channel] emits
    for a printable message in which no two adjacent two-character
    chunks are equal, received in order with the sender's TTL, leave
    the receiver with exactly that message, one counted packet per data
    packet, nothing filtered, the EOF word as last accepted word and
    the clock started at the first packet; the second and third EOF
    markers change nothing. *)
Theorem storage_sender_to_receiver (ttl0 : Z) (message : Py.str)
        (obs : list (Q * (Z * Z))) :
  Forall (fun c => 32 <= c <= 126) message ->
  Spec.has_repeat (StorageSender.encode message) = false ->
  map snd obs = StorageSender.send_storage_channel message ttl0 ->
  let s := feed obs (init ttl0) in
  decoded_bytes s = message
  /\ packet_count s = Z.of_nat (length (StorageSender.encode message))
  /\ system_packets_filtered s = 0
  /\ last_packet_id s = Some eof_threshold
  /\ start_time s = option_map fst (hd_error obs).
Proof.
  intros Hp Hrep Hobs. cbn zeta.
  unfold StorageSender.send_storage_channel in Hobs.
  apply map_eq_app in Hobs. destruct Hobs as (obs1 & obs2 & -> & Hdata & Heofs).
  set (ws := StorageSender.encode message) in *.
  assert (Hsq : Spec.squash None ws = ws).
  { apply squash_without_repeat; [exact Hrep|]. destruct ws; [exact I|reflexivity]. }
  pose proof (encode_printable_not_eof message Hp) as Hne. fold ws in Hne.
  pose proof (feed_fresh ws obs1 (init ttl0) Hdata Hsq Hne) as Hf.
  cbn zeta in Hf. destruct Hf as (H1 & H2 & H3 & H4 & H5 & H6).
  cbn [init expected_ttl decoded_bytes packet_count last_packet_id
         system_packets_filtered start_time app] in H1, H2, H3, H4, H5, H6.
  rewrite feed_app. set (s1 := feed obs1 (init ttl0)) in *.
  assert (Hdec : decoded_bytes s1 = message).
  { rewrite H2. subst ws. now apply decode_encode_any_length_aux. }
  assert (Hfresh : eq_last eof_threshold (last_packet_id s1) = false).
  { rewrite H4. destruct (last_some_cases ws None) as [Hl|[w [Hin Hl]]];
      rewrite Hl; [reflexivity|].
    cbn [eq_last]. apply Z.eqb_neq. intros Heq.
    rewrite Forall_forall in Hne. now apply (Hne w Hin). }
  destruct obs2 as [|[n1 p1] [|[n2 p2] [|[n3 p3] [|? ?]]]]; try discriminate.
  cbn in Heofs. inversion Heofs; subst p1 p2 p3.
  rewrite !feed_cons. cbn [feed fold_left fst snd].
  rewrite <- H1.
  change 65535 with eof_threshold.
  rewrite (callback_accepted n1 eof_threshold s1) by exact Hfresh.
  set (s2 := mk _ _ _ _ _ _).
  change (expected_ttl s1) with (expected_ttl s2).
  rewrite !(callback_duplicate _ eof_threshold s2) by apply eq_last_same.
  subst s2. cbn [decoded_bytes packet_count system_packets_filtered
                   last_packet_id start_time].
  unfold Spec.payload. rewrite Z.eqb_refl, app_nil_r, Z.add_0_r.
  repeat split; try assumption.
  rewrite H6. destruct obs1 as [|o obs1]; reflexivity.
Qed.

End StorageEndToEnd.

Section StorageSenderFacts.

Lemma storage_sender_to_receiver_witness :
  let obs := map (fun p => (7%Q, p))
                 (StorageSender.send_storage_channel (Py.lit "Hi!") 42) in
  let s := StorageReceiver.feed obs (StorageReceiver.init 42) in
  StorageReceiver.decoded_bytes s = Py.lit "Hi!"
  /\ StorageReceiver.packet_count s
     = Z.of_nat (length (StorageSender.encode (Py.lit "Hi!")))
  /\ StorageReceiver.system_packets_filtered s = 0
  /\ StorageReceiver.last_packet_id s = Some StorageReceiver.eof_threshold
  /\ StorageReceiver.start_time s = option_map fst (hd_error obs).
Proof.
  intros obs. apply (storage_sender_to_receiver 42 (Py.lit "Hi!") obs).
  - cbn. repeat (apply Forall_cons; [lia|]). apply Forall_nil.
  - reflexivity.
  - reflexivity.
Defined.

Lemma send_words_all_ok (ok : nat -> bool) (ttl0 : Z) (words : list Z) :
  forall k0 : nat,
    (forall j, (j < length words)%nat -> ok (k0 + j)%nat = true) ->
    StorageSend.send_words ok k0 ttl0 words
    = (map (fun w => (w, ttl0)) words, true).
Proof.
  induction words as [|w words IH]; intros k0 Hok; [reflexivity|].
  cbn [StorageSend.send_words map].
  rewrite <- (Nat.add_0_r k0) at 1. rewrite Hok by (cbn [length]; lia).
  rewrite IH; [reflexivity|].
  intros j Hj. rewrite Nat.add_succ_comm. apply Hok. cbn [length]. lia.
Qed.

Lemma send_words_fails_at (ok : nat -> bool) (ttl0 : Z) (words : list Z) :
  forall k0 k : nat,
    (k < length words)%nat ->
    (forall j, (j < k)%nat -> ok (k0 + j)%nat = true) ->
    ok (k0 + k)%nat = false ->
    StorageSend.send_words ok k0 ttl0 words
    = (firstn k (map (fun w => (w, ttl0)) words), false).
Proof.
  induction words as [|w words IH]; intros k0 k Hk Hok Hfail;
    [cbn [length] in Hk; lia|].
  cbn [StorageSend.send_words map]. destruct k as [|k].
  - rewrite Nat.add_0_r in Hfail. rewrite Hfail. reflexivity.
  - rewrite <- (Nat.add_0_r k0) at 1. rewrite Hok by lia.
    rewrite (IH (S k0) k); [reflexivity|cbn [length] in Hk; lia| |].
    + intros j Hj. rewrite Nat.add_succ_comm. apply Hok. lia.
    + now rewrite Nat.add_succ_comm.
Qed.

(** X8. When the [k]-th call of [send] for a data packet is the first
    one to raise, exactly the first [k] data packets have gone out and
    nothing follows them: no later data packet and no EOF marker. *)
Theorem failed_send_ends_transmission (ok : nat -> bool) (message : Py.str)
        (ttl0 : Z) (k : nat) :
  (k < length (StorageSender.encode message))%nat ->
  (forall j, (j < k)%nat -> ok j = true) ->
  ok k = false ->
  StorageSend.send_storage_channel ok message ttl0
  = firstn k (map (fun w => (w, ttl0)) (StorageSender.encode message))
  /\ ~ In (StorageReceiver.eof_threshold, ttl0)
         (skipn (length (StorageSender.encode message))
                (StorageSend.send_storage_channel ok message ttl0)).
Proof.
  intros Hk Hok Hfail.
  assert (Hsend : StorageSend.send_storage_channel ok message ttl0
                  = firstn k (map (fun w => (w, ttl0))
                                  (StorageSender.encode message))).
  { unfold StorageSend.send_storage_channel. cbn zeta.
    rewrite (send_words_fails_at ok ttl0 _ 0 k); [reflexivity|exact Hk| |];
      cbn [Nat.add]; assumption. }
  split; [exact Hsend|].
  rewrite Hsend, skipn_all2; [intros []|].
  rewrite length_firstn, length_map. lia.
Qed.

Lemma failed_send_ends_transmission_witness :
  let ok := fun k => negb (k =? 1)%nat in
  StorageSend.send_storage_channel ok (Py.lit "Secret") 42
  = firstn 1 (map (fun w => (w, 42)) (StorageSender.encode (Py.lit "Secret")))
  /\ ~ In (StorageReceiver.eof_threshold, 42)
         (skipn (length (StorageSender.encode (Py.lit "Secret")))
                (StorageSend.send_storage_channel ok (Py.lit "Secret") 42)).
Proof.
  intros ok.
  apply (failed_send_ends_transmission ok (Py.lit "Secret") 42 1).
  - cbn. lia.
  - intros j Hj. assert (j = 0%nat) as -> by lia. reflexivity.
  - reflexivity.
Defined.

(** X9. When no call of [send] raises, the sender emits the data
    packets followed by three EOF markers, and the number of data
    packets is the one announced as [packets_needed]. *)
Theorem unfailing_send_emits_all (ok : nat -> bool) (message : Py.str)
        (ttl0 : Z) :
  (forall k, ok k = true) ->
  StorageSend.send_storage_channel ok message ttl0
  = StorageSender.send_storage_channel message ttl0
  /\ length (StorageSend.send_storage_channel ok message ttl0)
     = (StorageSend.packets_needed message + 3)%nat.
Proof.
  intros Hok.
  assert (Hsend : StorageSend.send_storage_channel ok message ttl0
                  = StorageSender.send_storage_channel message ttl0).
  { unfold StorageSend.send_storage_channel. cbn zeta.
    rewrite send_words_all_ok by (intros; apply Hok).
    unfold StorageSend.send_eofs. cbn [seq flat_map app].
    rewrite !Hok. reflexivity. }
  split; [exact Hsend|].
  rewrite Hsend. unfold StorageSender.send_storage_channel.
  rewrite length_app, length_map. cbn [repeat length].
  unfold StorageSender.encode, StorageSend.packets_needed, Py.range_by.
  now rewrite !length_map, length_seq.
Qed.

Lemma unfailing_send_emits_all_witness :
  StorageSend.send_storage_channel (fun _ => true) (Py.lit "Hey") 42
  = StorageSender.send_storage_channel (Py.lit "Hey") 42
  /\ length (StorageSend.send_storage_channel (fun _ => true) (Py.lit "Hey") 42)
     = (StorageSend.packets_needed (Py.lit "Hey") + 3)%nat.
Proof.
  apply unfailing_send_emits_all. reflexivity.
Defined.

End StorageSenderFacts.

(** ** The timing codec *)

Section TimingCodec.

Import TimingReceiver.

Lemma format_byte_table :
  forallb (fun n => let c := Z.of_nat n in
                    (length (TimingSender.format_08b c) =? 8)%nat
                    && (int2 (TimingSender.format_08b c) =? c))
          (seq 0 256) = true.
Proof. vm_compute. reflexivity. Qed.

Lemma format_byte (c : Z) :
  0 <= c <= 255 ->
  length (TimingSender.format_08b c) = 8%nat
  /\ int2 (TimingSender.format_08b c) = c.
Proof.
  intros Hc. pose proof format_byte_table as H.
  rewrite forallb_forall in H. specialize (H (Z.to_nat c)).
  cbn zeta in H. rewrite Z2Nat.id in H by lia.
  assert (Hin : In (Z.to_nat c) (seq 0 256)) by (apply in_seq; lia).
  apply H in Hin. apply andb_prop in Hin. destruct Hin as [Hl Hv].
  split; [now apply Nat.eqb_eq|now apply Z.eqb_eq].
Qed.

Lemma assemble_octet (d rest : list bool) :
  length d = 8%nat -> assemble (d ++ rest) = int2 d :: assemble rest.
Proof.
  intros Hd.
  do 8 (destruct d as [|? d]; [discriminate Hd|]).
  destruct d; [|discriminate Hd].
  cbn [app assemble]. now rewrite int2_byte.
Qed.

Lemma text_to_bits_cons (c : Z) (text : Py.str) :
  TimingSender.text_to_bits (c :: text)
  = TimingSender.format_08b c ++ TimingSender.text_to_bits text.
Proof. reflexivity. Qed.


Lemma text_to_bits_length (text : Py.str) :
  Forall (fun c => 0 <= c <= 255) text ->
  length (TimingSender.text_to_bits text) = (8 * length text)%nat.
Proof.
  induction 1 as [|c text Hc _ IH]; [reflexivity|].
  rewrite text_to_bits_cons, length_app, IH.
  destruct (format_byte c Hc) as [-> _]. cbn [length]. lia.
Qed.

Lemma assemble_text (text : Py.str) (tail : list bool) :
  Forall (fun c => 0 <= c <= 255) text ->
  assemble (TimingSender.text_to_bits text ++ tail) = text ++ assemble tail.
Proof.
  induction 1 as [|c text Hc _ IH]; [reflexivity|].
  rewrite text_to_bits_cons, <- app_assoc.
  destruct (format_byte c Hc) as [Hl Hv].
  rewrite assemble_octet by exact Hl. rewrite Hv, IH. reflexivity.
Qed.

(** X10. The timing codec round trip: a text whose characters have
    codes 0..255 becomes eight bits per character, and the receiver's
    grouping of those bits gives the text back. *)
Theorem bits_to_message_text_to_bits (text : Py.str) :
  Forall (fun c => 0 <= c <= 255) text ->
  length (TimingSender.text_to_bits text) = (8 * length text)%nat
  /\ bits_to_message (TimingSender.text_to_bits text) = text.
Proof.
  intros Ht. split; [now apply text_to_bits_length|].
  rewrite bits_to_message_assemble.
  rewrite <- (app_nil_r (TimingSender.text_to_bits text)).
  rewrite assemble_text by exact Ht. cbn [assemble]. apply app_nil_r.
Qed.

Lemma bits_to_message_text_to_bits_witness :
  length (TimingSender.text_to_bits (Py.lit "Hi")) = (8 * length (Py.lit "Hi"))%nat
  /\ bits_to_message (TimingSender.text_to_bits (Py.lit "Hi")) = Py.lit "Hi".
Proof.
  apply bits_to_message_text_to_bits.
  cbn. repeat (apply Forall_cons; [lia|]). apply Forall_nil.
Defined.

End TimingCodec.

(** ** The timing receiver's loop *)

Section TimingLoop.

Import TimingReceiver.

Variable threshold : Q.

Lemma loop_collect (ds : list (string * Q)) (now : Q) :
  forall l : locals,
    loop threshold (TimingSession.ideal ds) now l
    = match TimingSession.collect threshold ds l with
      | Continue l' => Receiving l'
      | Break l' => finish now l'
      | Throw e => Uncaught e
      end.
Proof.
  induction ds as [|[data t] ds IH]; intros l; [reflexivity|].
  cbn [TimingSession.ideal map fst snd loop TimingSession.collect].
  destruct (iteration threshold data t l) as [l'|l'|e]; try reflexivity.
  apply IH.
Qed.

Lemma sound_init : TimingSession.sound threshold init.
Proof.
  unfold TimingSession.sound, init. cbn.
  repeat split; try reflexivity; try constructor. intros H. now elim H.
Qed.

(** An EOF marker only moves the two counters. *)
Lemma iteration_eof (t : Q) (l : locals) :
  let l1 := mk (bits l) (iats l) (bit_labels l) (prev_time l) (start_time l)
               (eof_count l + 1) (packets_received l + 1) in
  iteration threshold "EOF" t l
  = if 2 <=? eof_count l + 1 then Break l1 else Continue l1.
Proof. reflexivity. Qed.

Lemma eof_keeps_sound (l : locals) (e p : Z) :
  TimingSession.sound threshold l ->
  TimingSession.sound threshold
    (mk (bits l) (iats l) (bit_labels l) (prev_time l) (start_time l) e p).
Proof. intros H. exact H. Qed.

(** A data datagram never ends the loop and accounts for one more
    datagram seen. *)
Lemma iteration_data (data : string) (t : Q) (l : locals) :
  String.eqb data "EOF" = false ->
  TimingSession.sound threshold l ->
  exists l1 : locals,
    iteration threshold data t l = Continue l1
    /\ TimingSession.sound threshold l1
    /\ packets_received l1 = packets_received l + 1
    /\ eof_count l1 = eof_count l
    /\ TimingSession.seen l1 = S (TimingSession.seen l).
Proof.
  intros Hdata (Hbits & Hprev & Hlab & Hcls).
  unfold iteration. rewrite Hdata.
  destruct (start_time l) as [t0|] eqn:Hst.
  - destruct (prev_time l) as [prev|] eqn:Hpt;
      [|exfalso; apply Hprev; [discriminate|reflexivity]].
    eexists. split; [reflexivity|].
    unfold TimingSession.sound, TimingSession.seen. cbn. rewrite Hst.
    repeat split; try discriminate.
    + now rewrite Hlab.
    + apply Forall2_app; [exact Hcls|]. constructor; [reflexivity|constructor].
    + rewrite length_app. cbn [length]. lia.
  - eexists. split; [reflexivity|].
    unfold TimingSession.sound, TimingSession.seen. cbn. rewrite Hst.
    rewrite (Hbits eq_refl) in *.
    repeat split; try discriminate; assumption.
Qed.

Lemma read_cons_eof (k : nat) (t : Q) (ds : list (string * Q)) :
  TimingSession.read k (("EOF"%string, t) :: ds)
  = match k with
    | S (S k') => ("EOF"%string, t) :: TimingSession.read (S k') ds
    | _ => [("EOF"%string, t)]
    end.
Proof. reflexivity. Qed.

Lemma read_cons_data (k : nat) (data : string) (t : Q)
      (ds : list (string * Q)) :
  String.eqb data "EOF" = false ->
  TimingSession.read k ((data, t) :: ds) = (data, t) :: TimingSession.read k ds.
Proof. intros H. cbn [TimingSession.read fst]. now rewrite H. Qed.

Lemma markers_cons (data : string) (t : Q) (ds : list (string * Q)) :
  TimingSession.eof_markers ((data, t) :: ds)
  = ((if String.eqb data "EOF" then 1 else 0)
     + TimingSession.eof_markers ds)%nat
  /\ TimingSession.data_datagrams ((data, t) :: ds)
     = ((if String.eqb data "EOF" then 0 else 1)
        + TimingSession.data_datagrams ds)%nat.
Proof.
  unfold TimingSession.eof_markers, TimingSession.data_datagrams.
  cbn [filter fst]. destruct (String.eqb data "EOF"); split; reflexivity.
Qed.

(** What [collect] leaves, in terms of the datagrams it read. *)
Lemma collect_accounting (ds : list (string * Q)) :
  forall (l : locals) (e : nat),
    TimingSession.sound threshold l ->
    eof_count l = Z.of_nat e ->
    (e < 2)%nat ->
    let rd := TimingSession.read (2 - e) ds in
    let good := fun l' =>
      TimingSession.sound threshold l'
      /\ packets_received l' = packets_received l + Z.of_nat (length rd)
      /\ eof_count l' = eof_count l + Z.of_nat (TimingSession.eof_markers rd)
      /\ TimingSession.seen l'
         = (TimingSession.seen l + TimingSession.data_datagrams rd)%nat in
    match TimingSession.collect threshold ds l with
    | Continue l' =>
        (e + TimingSession.eof_markers ds < 2)%nat /\ rd = ds /\ good l'
    | Break l' => (2 <= e + TimingSession.eof_markers ds)%nat /\ good l'
    | Throw _ => False
    end.
Proof.
  induction ds as [|[data t] ds IH]; intros l e Hs He Hlt; cbn zeta.
  - cbn [TimingSession.collect].
    replace (TimingSession.read (2 - e) []) with (@nil (string * Q))
      by (destruct (2 - e)%nat; reflexivity).
    split; [cbn; lia|]. split; [reflexivity|]. split; [exact Hs|].
    cbn [length TimingSession.eof_markers TimingSession.data_datagrams filter].
    cbn [Z.of_nat]. lia.
  - cbn [TimingSession.collect].
    destruct (markers_cons data t ds) as [Hm Hd]. rewrite Hm.
    destruct (String.eqb data "EOF") eqn:Hdata.
    + apply String.eqb_eq in Hdata. subst data.
      rewrite iteration_eof. cbn zeta. rewrite read_cons_eof.
      set (l1 := mk _ _ _ _ _ _ _).
      assert (Hs1 : TimingSession.sound threshold l1) by exact Hs.
      assert (Hseen : TimingSession.seen l1 = TimingSession.seen l)
        by reflexivity.
      assert (Hp1 : packets_received l1 = packets_received l + 1)
        by reflexivity.
      assert (Hc1 : eof_count l1 = eof_count l + 1) by reflexivity.
      clearbody l1.
      destruct e as [|[|e]]; [| |lia].
      * replace (2 <=? eof_count l + 1) with false
          by (symmetry; apply Z.leb_gt; lia).
        change (2 - 0)%nat with 2%nat.
        assert (He1 : eof_count l1 = Z.of_nat 1) by lia.
        specialize (IH l1 1%nat Hs1 He1 ltac:(lia)). cbn zeta in IH.
        change (2 - 1)%nat with 1%nat in IH.
        destruct (markers_cons "EOF" t (TimingSession.read 1 ds)) as [Hm' Hd'].
        cbn [String.eqb Ascii.eqb Bool.eqb] in Hm', Hd'.
        rewrite Hm', Hd'. cbn [length].
        destruct (TimingSession.collect threshold ds l1) as [l'|l'|e'];
          [| |exact IH].
        -- destruct IH as (H1 & H2 & H3 & H4 & H5 & H6).
           split; [lia|]. split; [now rewrite H2|].
           split; [exact H3|]. lia.
        -- destruct IH as (H1 & H3 & H4 & H5 & H6).
           split; [lia|]. split; [exact H3|]. lia.
      * replace (2 <=? eof_count l + 1) with true
          by (symmetry; apply Z.leb_le; lia).
        change (2 - 1)%nat with 1%nat. cbn iota.
        split; [lia|]. split; [exact Hs1|].
        cbn [length TimingSession.eof_markers TimingSession.data_datagrams
               filter fst String.eqb Ascii.eqb Bool.eqb negb].
        cbn [Z.of_nat Pos.of_succ_nat]. lia.
    + destruct (iteration_data data t l Hdata Hs)
        as (l1 & -> & Hs1 & Hp1 & He1 & Hseen).
      rewrite read_cons_data by exact Hdata.
      destruct (markers_cons data t (TimingSession.read (2 - e) ds))
        as [Hm' Hd'].
      rewrite Hdata in Hm', Hd'. rewrite Hm', Hd'. cbn [length].
      assert (He' : eof_count l1 = Z.of_nat e) by lia.
      specialize (IH l1 e Hs1 He' Hlt). cbn zeta in IH.
      destruct (TimingSession.collect threshold ds l1) as [l'|l'|e'];
        [| |exact IH].
      * destruct IH as (H1 & H2 & H3 & H4 & H5 & H6).
        split; [lia|]. split; [now rewrite H2|].
        split; [exact H3|]. lia.
      * destruct IH as (H1 & H3 & H4 & H5 & H6).
        split; [lia|]. split; [exact H3|]. lia.
Qed.

End TimingLoop.

Section TimingLoopClaims.

Import TimingReceiver.

Variable threshold : Q.

Lemma collect_read (ds : list (string * Q)) :
  forall (l : locals) (e : nat),
    eof_count l = Z.of_nat e ->
    (e < 2)%nat ->
    TimingSession.collect threshold (TimingSession.read (2 - e) ds) l
    = TimingSession.collect threshold ds l.
Proof.
  induction ds as [|[data t] ds IH]; intros l e He Hlt.
  - destruct (2 - e)%nat; reflexivity.
  - destruct (String.eqb data "EOF") eqn:Hdata.
    + apply String.eqb_eq in Hdata. subst data. rewrite read_cons_eof.
      destruct e as [|[|e]]; [| |lia].
      * change (2 - 0)%nat with 2%nat. cbn iota.
        cbn [TimingSession.collect]. rewrite iteration_eof. cbn zeta.
        replace (2 <=? eof_count l + 1) with false
          by (symmetry; apply Z.leb_gt; lia).
        apply (IH _ 1%nat); [cbn [eof_count]; lia|lia].
      * change (2 - 1)%nat with 1%nat. cbn iota.
        cbn [TimingSession.collect]. rewrite iteration_eof. cbn zeta.
        replace (2 <=? eof_count l + 1) with true
          by (symmetry; apply Z.leb_le; lia).
        reflexivity.
    + rewrite read_cons_data by exact Hdata. cbn [TimingSession.collect].
      destruct (iteration threshold data t l) as [l1|l1|e1] eqn:Hit;
        try reflexivity.
      apply IH; [|exact Hlt].
      unfold iteration in Hit. rewrite Hdata in Hit.
      destruct (start_time l); [destruct (prev_time l); [|discriminate]|];
        injection Hit as <-; exact He.
Qed.

(** X11. The receiver goes on receiving as long as fewer than two EOF
    markers have arrived, and stops at the second one, wherever the two
    stand among the datagrams; what follows the second marker is never
    read. *)
Theorem loop_ends_at_second_eof (ds : list (string * Q)) (now : Q) :
  match receive_timing_channel threshold (TimingSession.ideal ds) now with
  | Receiving _ => (TimingSession.eof_markers ds < 2)%nat
  | Reported _ => (2 <= TimingSession.eof_markers ds)%nat
  | Uncaught _ => (2 <= TimingSession.eof_markers ds)%nat
  end
  /\ receive_timing_channel threshold
       (TimingSession.ideal (TimingSession.read 2 ds)) now
     = receive_timing_channel threshold (TimingSession.ideal ds) now.
Proof.
  unfold receive_timing_channel. rewrite !loop_collect.
  pose proof (collect_read ds init 0 eq_refl ltac:(lia)) as Hrd.
  change (2 - 0)%nat with 2%nat in Hrd. rewrite Hrd.
  split; [|reflexivity].
  pose proof (collect_accounting threshold ds init 0 (sound_init threshold)
                eq_refl ltac:(lia)) as H.
  cbn zeta in H.
  destruct (TimingSession.collect threshold ds init) as [l'|l'|e'];
    [lia| |contradiction].
  destruct H as [H _]. unfold finish. destruct (start_time l'); lia.
Qed.

(** X12. With [rd] the datagrams read, up to the second EOF marker:
    the report counts every datagram of [rd], markers included, as a
    packet and holds one bit less than [rd] has data datagrams; the
    receiver dies with [TypeError] exactly when [rd] has no data
    datagram; while it is still receiving the same counts hold of its
    locals. *)
Theorem timing_report_counts (ds : list (string * Q)) (now : Q) :
  let rd := TimingSession.read 2 ds in
  match receive_timing_channel threshold (TimingSession.ideal ds) now with
  | Receiving l =>
      packets_received l = Z.of_nat (length ds)
      /\ length (bits l) = pred (TimingSession.data_datagrams ds)
  | Reported r =>
      packets r = Z.of_nat (length rd)
      /\ nbits r = pred (TimingSession.data_datagrams rd)
      /\ (0 < TimingSession.data_datagrams rd)%nat
  | Uncaught e =>
      e = Py.TypeError /\ TimingSession.data_datagrams rd = 0%nat
  end.
Proof.
  cbn zeta. unfold receive_timing_channel. rewrite loop_collect.
  pose proof (collect_accounting threshold ds init 0 (sound_init threshold)
                eq_refl ltac:(lia)) as H.
  cbn zeta in H. change (2 - 0)%nat with 2%nat in H.
  destruct (TimingSession.collect threshold ds init) as [l'|l'|e'];
    [| |contradiction].
  - destruct H as (_ & Hrd & Hs & Hp & _ & Hseen). rewrite Hrd in *.
    cbn [init packets_received] in Hp. split; [lia|].
    destruct Hs as (Hbits & _).
    unfold TimingSession.seen in Hseen. cbn [init start_time Nat.add] in Hseen.
    destruct (start_time l'); [lia|].
    rewrite (Hbits eq_refl), <- Hseen. reflexivity.
  - destruct H as (_ & Hs & Hp & _ & Hseen).
    cbn [init packets_received] in Hp.
    unfold TimingSession.seen in Hseen. cbn [init start_time Nat.add] in Hseen.
    unfold finish. destruct (start_time l').
    + cbn [packets nbits]. repeat split; lia.
    + split; [reflexivity|]. now rewrite <- Hseen.
Qed.

Lemma pick_offset (label : bool) (xs : list Q) :
  forall (bs : list bool) (pre_x : list Q) (pre_b : list bool),
    length pre_x = length pre_b ->
    length xs = length bs ->
    TimingSession.pick label (pre_x ++ xs) (pre_b ++ bs)
                       (seq (length pre_x) (length xs))
    = Some (map fst (filter (fun p => Bool.eqb (snd p) label)
                            (combine xs bs))).
Proof.
  induction xs as [|x xs IH]; intros bs pre_x pre_b Hpre Hlen.
  - reflexivity.
  - destruct bs as [|b bs]; [discriminate|].
    cbn [length seq TimingSession.pick].
    rewrite nth_error_app2 by lia. rewrite Hpre at 1.
    rewrite (nth_error_app2 pre_x) by lia.
    rewrite !Nat.sub_diag. cbn [nth_error].
    specialize (IH bs (pre_x ++ [x]) (pre_b ++ [b])).
    rewrite !length_app in IH. cbn [length] in IH.
    rewrite !Nat.add_1_r, <- !app_assoc in IH. cbn [app] in IH.
    rewrite IH by (cbn [length] in Hlen; lia).
    cbn [combine filter snd]. destruct (Bool.eqb b label); reflexivity.
Qed.

Lemma classes_split (xs : list Q) (bs : list bool) :
  Forall2 (fun x b => b = negb (Qle_bool x threshold)) xs bs ->
  let class := fun label : bool =>
    map fst (filter (fun p => Bool.eqb (snd p) label) (combine xs bs)) in
  (length (class false) + length (class true))%nat = length bs
  /\ Forall (fun x => (x <= threshold)%Q) (class false)
  /\ Forall (fun x => (threshold < x)%Q) (class true).
Proof.
  induction 1 as [|x b xs bs Hb Hrest IH]; cbn zeta;
    [repeat split; constructor|].
  cbn zeta in IH. destruct IH as (IH1 & IH2 & IH3).
  cbn [combine filter snd length].
  destruct b; cbn [Bool.eqb map fst length].
  - split; [lia|]. split; [exact IH2|]. constructor; [|exact IH3].
    symmetry in Hb. apply negb_true_iff in Hb.
    apply Qnot_le_lt. intros Hle. apply Qle_bool_iff in Hle. congruence.
  - split; [lia|]. split; [|exact IH3]. constructor; [|exact IH2].
    symmetry in Hb. apply negb_false_iff in Hb. now apply Qle_bool_iff.
Qed.

Lemma classes_of_sound (l : locals) :
  TimingSession.sound threshold l ->
  exists xs0 xs1 : list Q,
    TimingSession.class_iats false l = Some xs0
    /\ TimingSession.class_iats true l = Some xs1
    /\ (length xs0 + length xs1)%nat = length (bits l)
    /\ Forall (fun x => (x <= threshold)%Q) xs0
    /\ Forall (fun x => (threshold < x)%Q) xs1.
Proof.
  intros (_ & _ & Hlab & Hcls).
  unfold TimingSession.class_iats. rewrite Hlab.
  pose proof (Forall2_length Hcls) as Hlen.
  do 2 eexists.
  split; [apply (pick_offset false (iats l) (bits l) [] [] eq_refl Hlen)|].
  split; [apply (pick_offset true (iats l) (bits l) [] [] eq_refl Hlen)|].
  exact (classes_split (iats l) (bits l) Hcls).
Qed.

(** X13. The statistics of lines 86-87 never fail on the locals the
    loop leaves: the label list is as long as the IAT list, the two
    classes together hold one sample per decoded bit, every sample of
    class 0 is at most the threshold and every sample of class 1 is
    above it. *)
Theorem iat_classes_split_at_threshold (ds : list (string * Q)) :
  match TimingSession.collect threshold ds init with
  | Throw _ => False
  | Continue l | Break l =>
      exists xs0 xs1 : list Q,
        TimingSession.class_iats false l = Some xs0
        /\ TimingSession.class_iats true l = Some xs1
        /\ (length xs0 + length xs1)%nat = length (bits l)
        /\ Forall (fun x => (x <= threshold)%Q) xs0
        /\ Forall (fun x => (threshold < x)%Q) xs1
  end.
Proof.
  pose proof (collect_accounting threshold ds init 0 (sound_init threshold)
                eq_refl ltac:(lia)) as H.
  cbn zeta in H.
  destruct (TimingSession.collect threshold ds init) as [l'|l'|e'];
    [| |contradiction].
  - destruct H as (_ & _ & Hs & _). now apply classes_of_sound.
  - destruct H as (_ & Hs & _). now apply classes_of_sound.
Qed.

End TimingLoopClaims.

(** ** Timing: sender to receiver *)

Section TimingEndToEnd.

Import TimingReceiver.

Variables threshold bit0_delay bit1_delay : Q.
Hypothesis bit0_sleeps : (0 <= bit0_delay)%Q.
Hypothesis bit1_sleeps : (0 <= bit1_delay)%Q.









End TimingEndToEnd.

Section TimingEndToEndCases.

Import TimingReceiver.


(** X15. Sending the empty message makes the receiver die: the sender
    emits only its EOF markers, the second one ends the loop before any
    data datagram has started the clock, and the elapsed-time
    subtraction raises [TypeError]. *)
Theorem empty_message_kills_receiver (threshold bit0_delay bit1_delay t now : Q) :
  TimingSender.send_timing_channel [] bit0_delay bit1_delay t
  = [("EOF"%string, t); ("EOF"%string, (t + (1 # 2))%Q);
     ("EOF"%string, (t + (1 # 2) + (1 # 2))%Q)]
  /\ receive_timing_channel threshold
       (TimingSession.ideal
          (TimingSender.send_timing_channel [] bit0_delay bit1_delay t))
       now
     = Uncaught Py.TypeError.
Proof. split; reflexivity. Qed.

End TimingEndToEndCases.
